(** * gvfs: gfileinfosimple.c

    A shallow embedding of [src/gvfs/gfileinfosimple.c], the collector that
    turns the metadata of one path (or one open descriptor) into a
    [GFileInfo] attribute bag, and the properties of it that the
    specification states.

    Conventions of the embedding.
    - A byte buffer and a C string are a [string] (a list of 8-bit
      characters).  A C string is written WITHOUT its terminating NUL; the
      view a [const char *] consumer has of a buffer is [c_str], the bytes
      before the first NUL.
    - C integers are [Z].  Conversions that can change the value ([int] from
      [ssize_t], [guint] and [gsize] arithmetic, [unsigned char] from
      [char]) are written out.
    - The operating system is a parameter: a state [W] and a handler [os]
      that answers every system call and may change the state.  The calls a
      run issues, with their answers, and the buffers it requests with
      [g_malloc]/[g_realloc] are recorded in a log.
    - The two loops whose number of rounds the operating system decides
      ([read_link], the listing retry of [get_xattrs]) take fuel. *)

From Stdlib Require Import ZArith Lia List Ascii String.
From stdpp Require Import base option gmap strings.

Local Open Scope Z_scope.

(** ** Bytes, characters and C strings *)

Definition NUL : ascii := Ascii.zero.

(** The value of a byte of memory, [0..255]. *)
Definition byte_of (a : ascii) : Z := Z.of_N (N_of_ascii a).

(** The value of the same byte read through a plain [char]; [char] is
    signed on the platforms gvfs targets (gcc on x86 Linux). *)
Definition char_of (a : ascii) : Z :=
  if byte_of a <? 128 then byte_of a else byte_of a - 256.

(** Conversion of a [char] value to [unsigned char]. *)
Definition unsigned_char (c : Z) : Z := c mod 256.

(** What a reader of a [const char *] sees: the bytes before the first NUL. *)
Fixpoint c_str (buf : string) : string :=
  match buf with
  | EmptyString => EmptyString
  | String a rest => if Ascii.eqb a NUL then EmptyString else String a (c_str rest)
  end.

(** [s + n] for a pointer into a buffer: the buffer without its first [n]
    bytes. *)
Fixpoint skip (n : nat) (buf : string) : string :=
  match n, buf with
  | O, _ => buf
  | S n', String _ rest => skip n' rest
  | S _, EmptyString => EmptyString
  end.

(** [s[i]]; past the end of what is known of the buffer it reads NUL. *)
Definition char_at (s : string) (i : Z) : ascii :=
  match String.get (Z.to_nat i) s with
  | Some a => a
  | None => NUL
  end.

(** [g_strconcat (s1, ..., NULL)]: the C strings one after the other. *)
Fixpoint g_strconcat (l : list string) : string :=
  match l with
  | [] => EmptyString
  | s :: l' => c_str s +:+ g_strconcat l'
  end.

(** ** ByteEscaper: [valid_char] and the two loops of [escape_xattr] *)

(** Lines 77-81. *)
Definition valid_char (c : Z) : bool :=
  (32 <=? c) && (c <=? 126) && negb (c =? 92).

(** Line 93. *)
Definition hex_digits : string := "0123456789abcdef".

(** Lines 97-102: the counting loop; the accumulator is [num_invalid]. *)
Fixpoint count_invalid (value : string) (num_invalid : Z) : Z :=
  match value with
  | EmptyString => num_invalid
  | String v rest =>
      count_invalid rest
        (if valid_char (char_of v) then num_invalid else num_invalid + 1)
  end.

(** Lines 117-121: the four characters written for one invalid byte. *)
Definition escape_seq (v : ascii) : string :=
  let c := unsigned_char (char_of v) in
  String "\" (String "x"
    (String (char_at hex_digits (Z.land (Z.shiftr c 8) 15))
      (String (char_at hex_digits (Z.land c 15)) EmptyString))).

(** Lines 110-124: the copying loop; [p] is what has been written to
    [escaped_val] so far.  The final [*p++ = 0] is the terminator, which the
    representation of C strings leaves out. *)
Fixpoint escape_loop (value : string) (p : string) : string :=
  match value with
  | EmptyString => p
  | String v rest =>
      if valid_char (char_of v)
      then escape_loop rest (p +:+ String v EmptyString)
      else escape_loop rest (p +:+ escape_seq v)
  end.

(** ** The attribute bag *)

(** Modelled from the spec: [GFileInfo] and its setters are declared in
    gfileinfo.h, which is not part of the sources at hand.  The spec (3,
    4.6) describes the bag as a mapping from keys to typed values that
    starts empty: step 1 of the path-based entry point "stores" the name
    and the hidden flag, step 4 stores the fields derived from the stat
    result "as requested", step 5 stores the symlink target, a failed
    resolution leaving the field omitted, and extended attributes and the
    security label are stored under string keys.  The standard fields are
    kept as optional record fields, the keyed attributes as a finite map. *)
Record GFileInfo := {
  info_name : option string;
  info_is_hidden : option bool;
  info_stat : option (Z * string);
  info_symlink_target : option string;
  info_attributes : gmap string string
}.

(** Modelled from the spec: [g_file_info_new] (gfileinfo.h, not among the
    sources) makes the bag that is "created fresh per path" (spec 3): it
    holds nothing. *)
Definition g_file_info_new : GFileInfo :=
  {| info_name := None; info_is_hidden := None; info_stat := None;
     info_symlink_target := None; info_attributes := ∅ |}.

(** Modelled from the spec: [g_file_info_set_name] (gfileinfo.h, not among
    the sources) "stores" the name (spec 4.6, step 1).  The name given is
    a nullable C string; what is kept is that string, so that a NULL name
    leaves no name. *)
Definition g_file_info_set_name (info : GFileInfo) (name : option string) : GFileInfo :=
  {| info_name := c_str <$> name; info_is_hidden := info_is_hidden info;
     info_stat := info_stat info;
     info_symlink_target := info_symlink_target info;
     info_attributes := info_attributes info |}.

(** Modelled from the spec: [g_file_info_set_is_hidden] (gfileinfo.h, not
    among the sources) "stores" the hidden flag (spec 4.6, step 1). *)
Definition g_file_info_set_is_hidden (info : GFileInfo) (is_hidden : bool) : GFileInfo :=
  {| info_name := info_name info; info_is_hidden := Some is_hidden;
     info_stat := info_stat info;
     info_symlink_target := info_symlink_target info;
     info_attributes := info_attributes info |}.

(** Modelled from the spec: [g_file_info_set_from_stat] (gfileinfo.h, not
    among the sources) populates the "standard fields from the stat result
    as requested", the "exact field set determined by the request flags"
    (spec 4.6, step 4).  The bag keeps the flags and the stat result that
    determine them. *)
Definition g_file_info_set_from_stat (info : GFileInfo) (requested : Z)
    (statbuf : string) : GFileInfo :=
  {| info_name := info_name info; info_is_hidden := info_is_hidden info;
     info_stat := Some (requested, statbuf);
     info_symlink_target := info_symlink_target info;
     info_attributes := info_attributes info |}.

(** Modelled from the spec: [g_file_info_set_symlink_target] (gfileinfo.h,
    not among the sources) stores the target; after a failed resolution,
    when it is given NULL, "the field is simply omitted" (spec 4.6,
    step 5). *)
Definition g_file_info_set_symlink_target (info : GFileInfo)
    (link : option string) : GFileInfo :=
  {| info_name := info_name info; info_is_hidden := info_is_hidden info;
     info_stat := info_stat info;
     info_symlink_target := c_str <$> link;
     info_attributes := info_attributes info |}.

(** Modelled from the spec: [g_file_info_set_attribute] (gfileinfo.h, not
    among the sources) stores a text value under a qualified key such as
    [xattr:user.foo] or [selinux:context]; "keys are unique" (spec 3), so
    that a second store under a key replaces the first.  Key and value are
    C strings. *)
Definition g_file_info_set_attribute (info : GFileInfo) (attribute value : string)
    : GFileInfo :=
  {| info_name := info_name info; info_is_hidden := info_is_hidden info;
     info_stat := info_stat info;
     info_symlink_target := info_symlink_target info;
     info_attributes := <[c_str attribute := c_str value]> (info_attributes info) |}.

(** ** The request: flags and matcher *)

(** Modelled from the spec: [GFileAttributeMatcher] is declared in
    gfileinfo.h, which is not part of the sources at hand.  The spec (4.1)
    gives it three queries: "does (namespace, key) match", "is the whole
    namespace enumerated" and the finite sequence of explicitly named keys
    that [g_file_attribute_matcher_enumerate_next] hands out one by one
    after the namespace has been chosen by
    [g_file_attribute_matcher_enumerate]. *)
Record GFileAttributeMatcher := {
  matcher_matches : string -> string -> bool;
  matcher_enumerates_all : string -> bool;
  matcher_explicit_keys : string -> list string
}.

Definition is_null {A} (p : option A) : bool :=
  match p with
  | None => true
  | Some _ => false
  end.

(** Modelled from the spec: the three queries of the matcher
    (gfileinfo.h, not among the sources) on a nullable matcher.  An absent
    matcher "matches nothing beyond the standard flags": "absence of a
    matcher means standard fields only" (spec 4.1). *)
Definition g_file_attribute_matcher_matches (matcher : option GFileAttributeMatcher)
    (namespace full_name : string) : bool :=
  match matcher with
  | Some m => matcher_matches m namespace full_name
  | None => false
  end.

(** Modelled from the spec: [enumerates_all] of spec 4.1, "true exactly
    when the namespace was requested as a wildcard". *)
Definition g_file_attribute_matcher_enumerate (matcher : option GFileAttributeMatcher)
    (namespace : string) : bool :=
  match matcher with
  | Some m => matcher_enumerates_all m namespace
  | None => false
  end.

(** Modelled from the spec: all the keys that repeated calls of
    [g_file_attribute_matcher_enumerate_next] return before NULL, "a lazy,
    finite" sequence "over explicitly named keys" (spec 4.1). *)
Definition g_file_attribute_matcher_enumerate_next (matcher : option GFileAttributeMatcher)
    (namespace : string) : list string :=
  match matcher with
  | Some m => matcher_explicit_keys m namespace
  | None => []
  end.

(** ** Errors *)

Record GError := {
  error_domain : string;
  error_code : Z;
  error_message : string
}.

(** GLib's quark for errors of the file utilities. *)
Definition G_FILE_ERROR : string := "g-file-error-quark".

(** The result of an entry point: the returned pointer (NULL or a bag) and
    what has been stored through [GError **error]. *)
Definition result : Type := option GFileInfo * option GError.

(** ** The operating system *)

(** The calls of libc and libselinux that the file makes. *)
Inductive os_call :=
| Sys_stat (path : string)
| Sys_lstat (path : string)
| Sys_fstat (fd : Z)
| Sys_readlink (path : string) (bufsiz : Z)
| Sys_getxattr (path name : string) (size : Z)
| Sys_lgetxattr (path name : string) (size : Z)
| Sys_listxattr (path : string) (size : Z)
| Sys_llistxattr (path : string) (size : Z)
| Sys_is_selinux_enabled
| Sys_getfilecon_raw (path : string)
| Sys_lgetfilecon_raw (path : string)
| Sys_fgetfilecon_raw (fd : Z).

(** The answer to a call: the returned integer, the value of [errno] after
    a failure, and what the call stored through its output argument (the
    bytes of the buffer, the [struct stat], the context string), [None]
    when it stored nothing. *)
Record os_ret := {
  ret : Z;
  errno : Z;
  out : option string
}.

(** The first [n] bytes of the buffer a call has filled.  What the call
    has not written is not known to the model: the buffer is read as
    ending where the written bytes end. *)
Definition buffer (r : os_ret) (n : Z) : string :=
  substring 0 (Z.to_nat n) (default EmptyString (out r)).

(** errno.h on Linux. *)
Definition ERANGE : Z := 34.

(** What the file takes from its environment: the operating system, the
    build configuration, the values of the request flags (an enumeration
    of gfileinfo.h) and the error helpers of GLib and gvfserror.c. *)
Record Platform := {
  W : Type;
  os : os_call -> W -> os_ret * W;
  HAVE_SELINUX : bool;
  G_FILE_INFO_NAME : Z;
  G_FILE_INFO_IS_HIDDEN : Z;
  G_FILE_INFO_SYMLINK_TARGET : Z;
  g_file_error_from_errno : Z -> Z;
  g_strerror : Z -> string;
  g_vfs_error_from_errno : Z -> GError;
  g_file_attribute_matcher_new : option string -> option GFileAttributeMatcher
}.

(** What a run leaves behind, in order: the calls with their answers and
    the buffers requested. *)
Inductive event :=
| Call (c : os_call) (r : os_ret)
| Malloc (n : Z)
| Realloc (n : Z).

(** The calls of a log, in order. *)
Fixpoint calls_of (l : list event) : list os_call :=
  match l with
  | [] => []
  | Call c _ :: l' => c :: calls_of l'
  | _ :: l' => calls_of l'
  end.

(** Conversion of an [ssize_t] to [int] (line 30). *)
Definition to_int (z : Z) : Z := (z + 2 ^ 31) mod 2 ^ 32 - 2 ^ 31.

(** Conversion to [guint] (32 bits) and to [gsize] (64 bits on LP64). *)
Definition to_guint (z : Z) : Z := z mod 2 ^ 32.
Definition to_gsize (z : Z) : Z := z mod 2 ^ 64.

Section Collector.

Variable P : Platform.

Record state := {
  world : W P;
  log : list event
}.

(** A computation either runs out of fuel ([None]) or returns a value and
    the state it leaves. *)
Definition M (A : Type) : Type := state -> option (A * state).

Definition mreturn {A} (a : A) : M A := fun s => Some (a, s).

Definition mbind' {A B} (m : M A) (k : A -> M B) : M B :=
  fun s => match m s with
           | Some (a, s') => k a s'
           | None => None
           end.

Definition out_of_fuel {A} : M A := fun _ => None.

Notation "x <~ m ;; k" := (mbind' m (fun x => k))
  (at level 100, m at next level, right associativity).

Definition emit (e : event) : M unit :=
  fun s => Some (tt, {| world := world s; log := log s ++ [e] |}).

(** A call: the operating system answers and moves on, and the call is
    logged with its answer. *)
Definition sys (c : os_call) : M os_ret :=
  fun s => let (r, w) := os P c (world s) in
           Some (r, {| world := w; log := log s ++ [Call c r] |}).

(** The requests for a buffer are logged; memory itself is not modelled,
    and a request does not fail (GLib aborts the program when it does). *)
Definition g_malloc (n : Z) : M unit := emit (Malloc n).
Definition g_realloc (n : Z) : M unit := emit (Realloc n).

(** [requested & flag] taken as a condition. *)
Definition requests (requested flag : Z) : bool :=
  negb (Z.land requested flag =? 0).

(** *** SymlinkResolver (lines 18-42) *)

Fixpoint read_link_loop (fuel : nat) (full_name : string) (size : Z)
    : M (option string) :=
  match fuel with
  | O => out_of_fuel
  | S fuel' =>
      r <~ sys (Sys_readlink full_name size) ;;
      let read_size := to_int (ret r) in
      if read_size <? 0 then mreturn None
      else if read_size <? size then mreturn (Some (buffer r read_size))
      else
        let size' := to_guint (size * 2) in
        _ <~ g_realloc size' ;;
        read_link_loop fuel' full_name size'
  end.

Definition read_link (fuel : nat) (full_name : string) : M (option string) :=
  let size := 256 in
  _ <~ g_malloc size ;;
  read_link_loop fuel full_name size.

(** *** SecurityContextCollector (lines 45-75) *)

Definition get_selinux_context (path : string) (info : GFileInfo)
    (attribute_matcher : option GFileAttributeMatcher) (follow_symlinks : bool)
    : M GFileInfo :=
  if HAVE_SELINUX P then
    if negb (g_file_attribute_matcher_matches attribute_matcher
               "selinux" "selinux:context")
    then mreturn info
    else
      e <~ sys Sys_is_selinux_enabled ;;
      if ret e =? 0 then mreturn info
      else
        c <~ (if follow_symlinks
              then sys (Sys_lgetfilecon_raw path)
              else sys (Sys_getfilecon_raw path)) ;;
        if ret c <? 0 then mreturn info
        else
          match out c with
          | Some context =>
              mreturn (g_file_info_set_attribute info "selinux:context" context)
          | None => mreturn info
          end
  else mreturn info.

(** *** ByteEscaper (lines 83-130) *)

(** [value] stands for the [len] bytes of the buffer; the terminating NUL
    that follows them is left out, as it is for every C string. *)
Definition escape_xattr (info : GFileInfo) (attr value : string) : M GFileInfo :=
  let len := Z.of_nat (String.length value) in
  let full_attr := g_strconcat ["xattr:"; attr] in
  let num_invalid := count_invalid value 0 in
  if num_invalid =? 0
  then mreturn (g_file_info_set_attribute info full_attr value)
  else
    _ <~ g_malloc (len + num_invalid * 3 + 1) ;;
    let escaped_val := escape_loop value EmptyString in
    mreturn (g_file_info_set_attribute info full_attr escaped_val).

(** *** ExtendedAttributeCollector (lines 132-247) *)

Definition get_one_xattr (path : string) (info : GFileInfo) (attr : string)
    (follow_symlinks : bool) : M GFileInfo :=
  r <~ (if follow_symlinks
        then sys (Sys_getxattr path attr (64 - 1))
        else sys (Sys_lgetxattr path attr (64 - 1))) ;;
  let len := ret r in
  if len >=? 0 then escape_xattr info attr (buffer r len)
  else if (len =? -1) && (errno r =? ERANGE) then
    r <~ (if follow_symlinks
          then sys (Sys_getxattr path attr 0)
          else sys (Sys_lgetxattr path attr 0)) ;;
    let len := ret r in
    if len <? 0 then mreturn info
    else
      _ <~ g_malloc (len + 1) ;;
      r <~ (if follow_symlinks
            then sys (Sys_getxattr path attr len)
            else sys (Sys_lgetxattr path attr len)) ;;
      let len := ret r in
      if len <? 0 then mreturn info
      else escape_xattr info attr (buffer r len)
  else mreturn info.

(** Lines 214-226: list again, doubling the buffer while the answer is
    ERANGE. *)
Fixpoint list_retry (fuel : nat) (path : string) (list_size : Z)
    (follow_symlinks : bool) : M os_ret :=
  match fuel with
  | O => out_of_fuel
  | S fuel' =>
      r <~ (if follow_symlinks
            then sys (Sys_listxattr path list_size)
            else sys (Sys_llistxattr path list_size)) ;;
      if (ret r =? -1) && (errno r =? ERANGE) then
        let list_size := to_gsize (list_size * 2) in
        _ <~ g_realloc list_size ;;
        list_retry fuel' path list_size follow_symlinks
      else mreturn r
  end.

(** Lines 231-238: the walk over the NUL-separated names.  [attr] is the
    buffer from the current name on.  Every round takes at least one byte
    off [list_res_size], so [n], which starts as [list_res_size], bounds
    the rounds and is never what ends the loop. *)
Fixpoint walk_names (n : nat) (path : string) (info : GFileInfo) (attr : string)
    (list_res_size : Z) (follow_symlinks : bool) : M GFileInfo :=
  match n with
  | O => mreturn info
  | S n' =>
      if list_res_size >? 0 then
        info <~ get_one_xattr path info (c_str attr) follow_symlinks ;;
        let len := Z.of_nat (String.length (c_str attr)) + 1 in
        walk_names n' path info (skip (Z.to_nat len) attr)
          (list_res_size - len) follow_symlinks
      else mreturn info
  end.

(** Lines 244-245. *)
Fixpoint each_key (keys : list string) (path : string) (info : GFileInfo)
    (follow_symlinks : bool) : M GFileInfo :=
  match keys with
  | [] => mreturn info
  | attr :: keys' =>
      info <~ get_one_xattr path info attr follow_symlinks ;;
      each_key keys' path info follow_symlinks
  end.

Definition get_xattrs (fuel : nat) (path : string) (info : GFileInfo)
    (matcher : option GFileAttributeMatcher) (follow_symlinks : bool)
    : M GFileInfo :=
  let all := g_file_attribute_matcher_enumerate matcher "xattr" in
  if all then
    r <~ (if follow_symlinks
          then sys (Sys_listxattr path 0)
          else sys (Sys_llistxattr path 0)) ;;
    let list_res_size := ret r in
    if (list_res_size =? -1) || (list_res_size =? 0) then mreturn info
    else
      let list_size := to_gsize list_res_size in
      _ <~ g_malloc list_size ;;
      r <~ list_retry fuel path list_size follow_symlinks ;;
      let list_res_size := ret r in
      if list_res_size =? -1 then mreturn info
      else
        walk_names (Z.to_nat list_res_size) path info
          (default EmptyString (out r)) list_res_size follow_symlinks
  else
    each_key (g_file_attribute_matcher_enumerate_next matcher "xattr")
      path info follow_symlinks.

(** *** MetadataCollector (lines 249-371) *)

Definition g_file_info_simple_get (fuel : nat) (basename : option string)
    (path : string) (requested : Z)
    (attribute_matcher : option GFileAttributeMatcher) (follow_symlinks : bool)
    : M result :=
  let info := g_file_info_new in
  let info :=
    if requests requested (G_FILE_INFO_NAME P)
    then g_file_info_set_name info basename else info in
  let info :=
    if requests requested (G_FILE_INFO_IS_HIDDEN P)
    then g_file_info_set_is_hidden info
           (match basename with
            | Some b => Ascii.eqb (char_at b 0) "."
            | None => false
            end)
    else info in
  if (Z.land requested
        (Z.lnot (Z.lor (G_FILE_INFO_NAME P) (G_FILE_INFO_IS_HIDDEN P))) =? 0)
     && is_null attribute_matcher
  then mreturn (Some info, None)
  else
    res <~ (if follow_symlinks
            then sys (Sys_stat path)
            else sys (Sys_lstat path)) ;;
    if ret res =? -1 then
      mreturn (None,
               Some {| error_domain := G_FILE_ERROR;
                       error_code := g_file_error_from_errno P (errno res);
                       error_message :=
                         "Error stating file '" +:+ path +:+ "': "
                           +:+ g_strerror P (errno res) |})
    else
      let info :=
        g_file_info_set_from_stat info requested
          (default EmptyString (out res)) in
      info <~ (if requests requested (G_FILE_INFO_SYMLINK_TARGET P)
               then
                 link <~ read_link fuel path ;;
                 mreturn (g_file_info_set_symlink_target info link)
               else mreturn info) ;;
      (* lines 302-325: the bodies for the access rights, the display
         name, the edit name, the MIME type and the icon are empty *)
      info <~ get_selinux_context path info attribute_matcher follow_symlinks ;;
      info <~ get_xattrs fuel path info attribute_matcher follow_symlinks ;;
      mreturn (Some info, None).

Definition g_file_info_simple_get_from_fd (fd : Z) (requested : Z)
    (attributes : option string) : M result :=
  r <~ sys (Sys_fstat fd) ;;
  if ret r =? -1 then
    mreturn (None, Some (g_vfs_error_from_errno P (errno r)))
  else
    let info := g_file_info_new in
    let info :=
      g_file_info_set_from_stat info requested (default EmptyString (out r)) in
    let matcher := g_file_attribute_matcher_new P attributes in
    info <~ (if HAVE_SELINUX P then
               if g_file_attribute_matcher_matches matcher
                    "selinux" "selinux:context"
               then
                 e <~ sys Sys_is_selinux_enabled ;;
                 if ret e =? 0 then mreturn info
                 else
                   c <~ sys (Sys_fgetfilecon_raw fd) ;;
                   if ret c >=? 0
                   then mreturn (g_file_info_set_attribute info "selinux:context"
                                   (default EmptyString (out c)))
                   else mreturn info
               else mreturn info
             else mreturn info) ;;
    mreturn (Some info, None).

End Collector.

Arguments mreturn {P A} a.
Arguments mbind' {P A B} m k.
Arguments world {P} s.
Arguments log {P} s.

(** ** The vocabulary of the specification *)

(** Every byte of a buffer satisfies [Q]. *)
Fixpoint every (Q : ascii -> Prop) (s : string) : Prop :=
  match s with
  | EmptyString => True
  | String a rest => Q a /\ every Q rest
  end.

(** A byte is safe when its value is printable ASCII and is not the escape
    character (spec 4.2). *)
Definition safe_byte (b : Z) : bool :=
  (32 <=? b) && (b <=? 126) && negb (b =? 92).

(** The lowercase hexadecimal digit of a value in [0..15]. *)
Definition hex_of (n : Z) : ascii :=
  ascii_of_N (Z.to_N (if n <? 10 then 48 + n else 87 + n)).

(** The encoding of one byte by the formula of spec 4.2: a safe byte is
    itself, an unsafe byte [c] is the escape character, [x], the digit of
    [(c >> 8) & 0xF] and the digit of [c & 0xF]. *)
Definition encode_byte (v : ascii) : string :=
  let c := byte_of v in
  if safe_byte c then String v EmptyString
  else
    String "\" (String "x"
      (String (hex_of (Z.land (Z.shiftr c 8) 15))
        (String (hex_of (Z.land c 15)) EmptyString))).

Fixpoint encode (value : string) : string :=
  match value with
  | EmptyString => EmptyString
  | String v rest => encode_byte v +:+ encode rest
  end.

(** The encoding of one byte by the gloss of spec 4.2, "two lowercase hex
    digits encoding the byte's low nibble twice". *)
Definition encode_byte_low_nibble_twice (v : ascii) : string :=
  let c := byte_of v in
  if safe_byte c then String v EmptyString
  else
    String "\" (String "x"
      (String (hex_of (Z.land c 15))
        (String (hex_of (Z.land c 15)) EmptyString))).

Fixpoint encode_low_nibble_twice (value : string) : string :=
  match value with
  | EmptyString => EmptyString
  | String v rest => encode_byte_low_nibble_twice v +:+ encode_low_nibble_twice rest
  end.

(** The key under which an extended attribute is stored. *)
Definition xattr_key (attr : string) : string := "xattr:" +:+ c_str attr.

(** ** The contracts of the system calls

    What readlink(2) and getxattr(2) answer for an object that does not
    change while it is read. *)

(** readlink(2) on a link whose target is [target]: the target is placed
    in the buffer, cut to [bufsiz] bytes, and the number of bytes placed is
    returned. *)
Definition readlink_answer (target : string) (bufsiz : Z) : os_ret :=
  {| ret := Z.min bufsiz (Z.of_nat (String.length target));
     errno := 0;
     out := Some (substring 0 (Z.to_nat bufsiz) target) |}.

(** getxattr(2) and listxattr(2) on data [value]: size 0 asks for the
    length, a buffer that is too small is ERANGE, a buffer that is large
    enough receives the data. *)
Definition sized_answer (value : string) (size : Z) : os_ret :=
  let n := Z.of_nat (String.length value) in
  if size =? 0 then {| ret := n; errno := 0; out := None |}
  else if size <? n then {| ret := -1; errno := ERANGE; out := None |}
  else {| ret := n; errno := 0; out := Some value |}.

Definition getx (follow_symlinks : bool) (path attr : string) (size : Z) : os_call :=
  if follow_symlinks then Sys_getxattr path attr size
  else Sys_lgetxattr path attr size.

(** ** A small platform

    One directory with a regular file [/file] that carries two extended
    attributes, a symbolic link [/link] with a target of 300 bytes, and
    nothing else.  It is used to run the collector on concrete inputs. *)

Fixpoint replicate_char (n : nat) (a : ascii) : string :=
  match n with
  | O => EmptyString
  | S n' => String a (replicate_char n' a)
  end.

(** errno.h on Linux. *)
Definition ENOENT : Z := 2.
Definition EBADF : Z := 9.
Definition EINVAL : Z := 22.
Definition ENODATA : Z := 61.

(** The two shapes of an answer. *)
Definition failure (e : Z) : os_ret := {| ret := -1; errno := e; out := None |}.
Definition success (n : Z) (o : option string) : os_ret :=
  {| ret := n; errno := 0; out := o |}.

(** The target of [/link], the value of [user.big] on [/file], the names
    of the attributes of [/file] as listxattr returns them, and the
    security context of both. *)
Definition demo_target : string := replicate_char 300 "t".
Definition demo_value : string := replicate_char 70 "v".
Definition demo_names : string :=
  "user.big" +:+ String NUL ("user.note" +:+ String NUL EmptyString).
Definition demo_context : string := "system_u:object_r:etc_t:s0".

Definition demo_exists (path : string) : bool :=
  String.eqb path "/file" || String.eqb path "/link".

Definition demo_xattr (path attr : string) (size : Z) : os_ret :=
  if negb (String.eqb path "/file") then failure ENOENT
  else if String.eqb attr "user.big" then sized_answer demo_value size
  else if String.eqb attr "user.note" then sized_answer "plain" size
  else failure ENODATA.

Definition demo_os (c : os_call) (w : unit) : os_ret * unit :=
  (match c with
   | Sys_stat path | Sys_lstat path =>
       if demo_exists path then success 0 (Some "statbuf") else failure ENOENT
   | Sys_fstat fd =>
       if fd =? 3 then success 0 (Some "statbuf") else failure EBADF
   | Sys_readlink path bufsiz =>
       if String.eqb path "/link" then
         if bufsiz <=? 0 then failure EINVAL else readlink_answer demo_target bufsiz
       else if demo_exists path then failure EINVAL
       else failure ENOENT
   | Sys_getxattr path attr size | Sys_lgetxattr path attr size =>
       demo_xattr path attr size
   | Sys_listxattr path size | Sys_llistxattr path size =>
       if String.eqb path "/file" then sized_answer demo_names size
       else if demo_exists path then success 0 None
       else failure ENOENT
   | Sys_is_selinux_enabled => success 1 None
   | Sys_getfilecon_raw path | Sys_lgetfilecon_raw path =>
       if demo_exists path
       then success (Z.of_nat (String.length demo_context)) (Some demo_context)
       else failure ENOENT
   | Sys_fgetfilecon_raw fd =>
       if fd =? 3
       then success (Z.of_nat (String.length demo_context)) (Some demo_context)
       else failure EBADF
   end, w).

(** The matcher of a request that is either [*] or one [namespace:*]. *)
Definition demo_matcher (spec : string) : GFileAttributeMatcher :=
  {| matcher_matches := fun namespace _ =>
       String.eqb spec "*" || String.eqb spec (namespace +:+ ":*");
     matcher_enumerates_all := fun namespace =>
       String.eqb spec "*" || String.eqb spec (namespace +:+ ":*");
     matcher_explicit_keys := fun _ => [] |}.

(** SELinux is compiled in and enabled; the flag values are three
    distinct bits. *)
Definition demo : Platform :=
  {| W := unit;
     os := demo_os;
     HAVE_SELINUX := true;
     G_FILE_INFO_NAME := 2;
     G_FILE_INFO_IS_HIDDEN := 2048;
     G_FILE_INFO_SYMLINK_TARGET := 1024;
     g_file_error_from_errno := fun e => if e =? ENOENT then 1 else 24;
     g_strerror := fun e => if e =? ENOENT then "No such file or directory" else "Error";
     g_vfs_error_from_errno := fun e =>
       {| error_domain := "g-vfs-error-quark"; error_code := e;
          error_message := "Error" |};
     g_file_attribute_matcher_new := fun attributes =>
       match attributes with
       | Some spec => Some (demo_matcher spec)
       | None => None
       end |}.

(** The state before a run: nothing logged. *)
Definition start : state demo := Build_state demo tt [].

(** The state in which the resolution of [/file], which is no link, has
    failed after a successful stat. *)
Definition demo_unresolved : state demo :=
  Build_state demo tt
    [Call (Sys_stat "/file") (success 0 (Some "statbuf"));
     Malloc 256;
     Call (Sys_readlink "/file" 256) (failure EINVAL)].

(** What a run that returns a bag has stored under [key], and what it has
    left in the log. *)
Definition stored {P} (key : string) (r : option (GFileInfo * state P))
    : option string :=
  match r with
  | Some (info, _) => info_attributes info !! key
  | None => None
  end.

Definition logged {P A} (r : option (A * state P)) : list event :=
  match r with
  | Some (_, s) => log s
  | None => []
  end.

(** ** The protocols of the specification *)

Definition stat_call (follow_symlinks : bool) (path : string) : os_call :=
  if follow_symlinks then Sys_stat path else Sys_lstat path.

Definition listx (follow_symlinks : bool) (path : string) (size : Z) : os_call :=
  if follow_symlinks then Sys_listxattr path size else Sys_llistxattr path size.

(** The test of lines 273-274 on the flags: nothing but the name and the
    hidden flag is requested. *)
Definition only_name_and_hidden (P : Platform) (requested : Z) : bool :=
  Z.land requested
    (Z.lnot (Z.lor (G_FILE_INFO_NAME P) (G_FILE_INFO_IS_HIDDEN P))) =? 0.

(** The value of the hidden flag (spec 4.6, step 1): true iff the base
    name starts with a dot. *)
Definition starts_with_dot (basename : option string) : bool :=
  match basename with
  | Some (String a _) => Ascii.eqb a "."
  | _ => false
  end.

(** SymlinkResolver in the words of spec 4.3, over unbounded integers:
    call with the current buffer size; a failed call is the failure of the
    resolution; a length strictly below the size is the result; otherwise
    the size is doubled and the call repeated. *)
Inductive resolves (P : Platform) (full_name : string)
    : Z -> W P -> option string -> W P -> Prop :=
| resolves_failure size w r w' :
    os P (Sys_readlink full_name size) w = (r, w') ->
    ret r < 0 ->
    resolves P full_name size w None w'
| resolves_fits size w r w' :
    os P (Sys_readlink full_name size) w = (r, w') ->
    0 <= ret r < size ->
    resolves P full_name size w (Some (buffer r (ret r))) w'
| resolves_doubles size w r w1 res w' :
    os P (Sys_readlink full_name size) w = (r, w1) ->
    size <= ret r ->
    resolves P full_name (2 * size) w1 res w' ->
    resolves P full_name size w res w'.

(** The listing of [path] settles: asked again and again with a buffer
    twice as large, the operating system does not answer ERANGE for
    ever. *)
Inductive settles (P : Platform) (path : string) (follow_symlinks : bool)
    : Z -> W P -> Prop :=
| settles_now size w :
    (ret (fst (os P (listx follow_symlinks path size) w)) =? -1)
      && (errno (fst (os P (listx follow_symlinks path size) w)) =? ERANGE) = false ->
    settles P path follow_symlinks size w
| settles_later size w :
    (ret (fst (os P (listx follow_symlinks path size) w)) =? -1)
      && (errno (fst (os P (listx follow_symlinks path size) w)) =? ERANGE) = true ->
    settles P path follow_symlinks (to_gsize (size * 2))
      (snd (os P (listx follow_symlinks path size) w)) ->
    settles P path follow_symlinks size w.

(** Two bags agree on the standard fields. *)
Definition same_standard (info info' : GFileInfo) : Prop :=
  info_name info' = info_name info /\
  info_is_hidden info' = info_is_hidden info /\
  info_stat info' = info_stat info /\
  info_symlink_target info' = info_symlink_target info.

(** The state a call leaves. *)
Definition after {P} (s : state P) (c : os_call) : state P :=
  {| world := snd (os P c (world s));
     log := log s ++ [Call c (fst (os P c (world s)))] |}.

Definition answer {P} (s : state P) (c : os_call) : os_ret :=
  fst (os P c (world s)).

(** ** Further vocabulary: texts, frames and logs *)

(** A byte of printable ASCII. *)
Definition printable (a : ascii) : Prop := 32 <= byte_of a <= 126.

(** [info'] differs from [info] at most in what is stored under [key]. *)
Definition frame_key (key : string) (info info' : GFileInfo) : Prop :=
  same_standard info info' /\
  forall k, k <> key -> info_attributes info' !! k = info_attributes info !! k.

(** [info'] differs from [info] at most in what is stored under the keys
    of extended attributes. *)
Definition frame_xattrs (info info' : GFileInfo) : Prop :=
  same_standard info info' /\
  forall k, (forall attr, k <> xattr_key attr) ->
            info_attributes info' !! k = info_attributes info !! k.

(** A computation that returns has extended the log, with calls that all
    satisfy [Q], and returns a value that satisfies [R]. *)
Definition keeps {P A} (Q : os_call -> Prop) (R : A -> Prop) (m : M P A) : Prop :=
  forall s a s',
    m s = Some (a, s') ->
    R a /\ exists l, log s' = log s ++ l /\ Forall Q (calls_of l).


(** The calls of the security-label collector on [path]. *)
Definition label_call (path : string) (c : os_call) : Prop :=
  c = Sys_is_selinux_enabled \/ c = Sys_getfilecon_raw path \/
  c = Sys_lgetfilecon_raw path.

(** The calls that the path-based entry point may make for a request:
    the stat call on the path, in the variant that the flag selects;
    readlink on the path, when the symlink target is requested; the calls
    of the security-label collector, when it is compiled in and the
    matcher matches the label; getxattr and listxattr on the path, in the
    variant that the flag selects, when a matcher is given. *)
Definition entry_call (P : Platform) (requested : Z)
    (attribute_matcher : option GFileAttributeMatcher) (follow_symlinks : bool)
    (path : string) (c : os_call) : Prop :=
  c = stat_call follow_symlinks path \/
  (requests requested (G_FILE_INFO_SYMLINK_TARGET P) = true /\
   exists size, c = Sys_readlink path size) \/
  (HAVE_SELINUX P = true /\
   g_file_attribute_matcher_matches attribute_matcher "selinux" "selinux:context"
   = true /\
   label_call path c) \/
  (is_null attribute_matcher = false /\
   ((exists attr size, c = getx follow_symlinks path attr size) \/
    (exists size, c = listx follow_symlinks path size))).

(** The retrieval of the security label that the path-based entry point
    uses for a flag. *)
Definition label_retrieval (follow_symlinks : bool) (path : string) : os_call :=
  if follow_symlinks then Sys_lgetfilecon_raw path else Sys_getfilecon_raw path.



(** An entry of the log of [read_link] that stays within [limit]: a
    readlink call on [full_name] with a positive size of at most [limit],
    or a request for a buffer of at most [limit] bytes. *)
Definition within (full_name : string) (limit : Z) (e : event) : Prop :=
  match e with
  | Call c _ => exists size, c = Sys_readlink full_name size /\ 0 < size <= limit
  | Malloc n | Realloc n => n <= limit
  end.


(** * Properties *)

(** ** Strings *)

Lemma string_app_cons a (s t : string) : String a s +:+ t = String a (s +:+ t).
Proof. reflexivity. Qed.

Lemma string_app_nil_l (s : string) : EmptyString +:+ s = s.
Proof. reflexivity. Qed.

Lemma string_app_nil_r (s : string) : s +:+ EmptyString = s.
Proof.
  induction s as [|a s IH]; [reflexivity | now rewrite string_app_cons, IH].
Qed.

Lemma string_app_assoc (s1 s2 s3 : string) : (s1 +:+ s2) +:+ s3 = s1 +:+ (s2 +:+ s3).
Proof.
  induction s1 as [|a s1 IH]; [reflexivity | now rewrite !string_app_cons, IH].
Qed.


Lemma every_app Q s1 s2 : every Q s1 -> every Q s2 -> every Q (s1 +:+ s2).
Proof.
  induction s1 as [|a s1 IH]; [intros _ H; exact H|].
  rewrite string_app_cons. simpl. intros [Ha H1] H2. auto.
Qed.

Lemma every_impl (Q R : ascii -> Prop) s :
  (forall a, Q a -> R a) -> every Q s -> every R s.
Proof. intros HQR. induction s as [|a s IH]; simpl; [tauto | intros [Ha Hs]; auto]. Qed.

Lemma c_str_no_nul s : every (fun a => a <> NUL) s -> c_str s = s.
Proof.
  induction s as [|a s IH]; simpl; [reflexivity | intros [Ha Hs]].
  destruct (Ascii.eqb_spec a NUL) as [e|_]; [contradiction | now rewrite IH].
Qed.

Lemma c_str_free s : every (fun a => a <> NUL) (c_str s).
Proof.
  induction s as [|a s IH]; simpl; [exact I|].
  destruct (Ascii.eqb_spec a NUL) as [e|n]; simpl; auto.
Qed.

Lemma c_str_idem s : c_str (c_str s) = c_str s.
Proof. apply c_str_no_nul, c_str_free. Qed.

Lemma substring_all s n : (String.length s <= n)%nat -> substring 0 n s = s.
Proof.
  revert n. induction s as [|a s IH]; intros [|n] H; simpl in *; try reflexivity;
    [lia | rewrite IH; [reflexivity | lia]].
Qed.

(** ** Bytes *)

Lemma byte_of_range a : 0 <= byte_of a < 256.
Proof. unfold byte_of. pose proof (N_ascii_bounded a). lia. Qed.

(** Whether [char] is signed or not, [valid_char] decides by the value of
    the byte. *)
Lemma valid_char_byte v : valid_char (char_of v) = safe_byte (byte_of v).
Proof.
  unfold valid_char, safe_byte, char_of. pose proof (byte_of_range v).
  destruct (Z.ltb_spec (byte_of v) 128); [reflexivity|].
  destruct (Z.leb_spec 32 (byte_of v - 256)); [lia|].
  destruct (Z.leb_spec (byte_of v) 126); [lia|].
  simpl. now rewrite Bool.andb_false_r.
Qed.

Lemma valid_char_unsigned v : valid_char (byte_of v) = valid_char (char_of v).
Proof. now rewrite valid_char_byte. Qed.

Lemma unsigned_char_of v : unsigned_char (char_of v) = byte_of v.
Proof.
  unfold unsigned_char, char_of. pose proof (byte_of_range v).
  destruct (Z.ltb_spec (byte_of v) 128).
  - apply Z.mod_small. lia.
  - replace (byte_of v - 256) with (byte_of v + (-1) * 256) by lia.
    rewrite Z.mod_add by lia. apply Z.mod_small. lia.
Qed.

Lemma hex_digits_at n : 0 <= n < 16 -> char_at hex_digits n = hex_of n.
Proof.
  intros Hn. rewrite <- (Z2Nat.id n) by lia.
  assert (Hk : (Z.to_nat n < 16)%nat) by lia.
  revert Hk. generalize (Z.to_nat n). clear Hn. intros k Hk.
  do 16 (destruct k as [|k]; [reflexivity|]). lia.
Qed.

Lemma low_nibble_range c : 0 <= Z.land c 15 < 16.
Proof.
  change 15 with (Z.ones 4). rewrite Z.land_ones by lia.
  apply Z.mod_pos_bound. lia.
Qed.

Lemma high_shift_zero c : 0 <= c < 256 -> Z.shiftr c 8 = 0.
Proof. intros H. rewrite Z.shiftr_div_pow2 by lia. apply Z.div_small. simpl. lia. Qed.

Lemma hex_of_not_nul n : 0 <= n < 16 -> hex_of n <> NUL.
Proof.
  intros Hn. rewrite <- (Z2Nat.id n) by lia.
  assert (Hk : (Z.to_nat n < 16)%nat) by lia.
  revert Hk. generalize (Z.to_nat n). clear Hn. intros k Hk.
  do 16 (destruct k as [|k]; [discriminate|]). lia.
Qed.

Lemma safe_byte_not_nul v : safe_byte (byte_of v) = true -> v <> NUL.
Proof. intros H ->. discriminate H. Qed.

(** ** ByteEscaper *)

Lemma count_invalid_ge value acc : acc <= count_invalid value acc.
Proof.
  revert acc. induction value as [|v rest IH]; intros acc; simpl; [lia|].
  destruct (valid_char (char_of v)); [apply IH|].
  specialize (IH (acc + 1)). lia.
Qed.

Lemma count_invalid_none value :
  every (fun v => safe_byte (byte_of v) = true) value -> count_invalid value 0 = 0.
Proof.
  induction value as [|v rest IH]; simpl; [reflexivity|].
  intros [Hv Hrest]. rewrite valid_char_byte, Hv. auto.
Qed.

Lemma count_invalid_some value :
  count_invalid value 0 = 0 -> every (fun v => safe_byte (byte_of v) = true) value.
Proof.
  induction value as [|v rest IH]; simpl; [tauto|].
  rewrite valid_char_byte. destruct (safe_byte (byte_of v)) eqn:Hv.
  - auto.
  - intros H. pose proof (count_invalid_ge rest (0 + 1)). lia.
Qed.

(** The table lookup of lines 120-121 writes the digits of the formula. *)
Lemma escape_seq_encode v : safe_byte (byte_of v) = false -> escape_seq v = encode_byte v.
Proof.
  intros Hv. unfold escape_seq, encode_byte. rewrite Hv, unsigned_char_of.
  pose proof (byte_of_range v) as Hr.
  rewrite !hex_digits_at; [reflexivity | apply low_nibble_range..].
Qed.

Lemma escape_loop_encode value p : escape_loop value p = p +:+ encode value.
Proof.
  revert p. induction value as [|v rest IH]; intros p; simpl.
  - now rewrite string_app_nil_r.
  - rewrite valid_char_byte. unfold encode_byte at 1.
    destruct (safe_byte (byte_of v)) eqn:Hv.
    + rewrite IH, string_app_assoc. reflexivity.
    + rewrite IH, string_app_assoc, escape_seq_encode by exact Hv.
      unfold encode_byte. now rewrite Hv.
Qed.

Lemma encode_safe value :
  every (fun v => safe_byte (byte_of v) = true) value -> encode value = value.
Proof.
  induction value as [|v rest IH]; simpl; [reflexivity|].
  intros [Hv Hrest]. unfold encode_byte. rewrite Hv, IH by exact Hrest. reflexivity.
Qed.

Lemma encode_byte_no_nul v : every (fun a => a <> NUL) (encode_byte v).
Proof.
  unfold encode_byte. destruct (safe_byte (byte_of v)) eqn:Hv; simpl.
  - split; [now apply safe_byte_not_nul | exact I].
  - repeat split; try discriminate; apply hex_of_not_nul, low_nibble_range.
Qed.

Lemma encode_no_nul value : every (fun a => a <> NUL) (encode value).
Proof.
  induction value as [|v rest IH]; simpl; [exact I|].
  apply every_app; [apply encode_byte_no_nul | exact IH].
Qed.

Lemma full_attr_key attr : c_str (g_strconcat ["xattr:"; attr]) = xattr_key attr.
Proof.
  unfold xattr_key. simpl g_strconcat. rewrite string_app_nil_r.
  apply c_str_no_nul, every_app; [| apply c_str_free].
  simpl. repeat split; discriminate.
Qed.

(** Reading a field of a bag that a setter has built. *)
Ltac bag_fields :=
  unfold g_file_info_set_attribute, g_file_info_set_symlink_target,
    g_file_info_set_from_stat, g_file_info_set_is_hidden, g_file_info_set_name,
    g_file_info_new;
  cbn [info_name info_is_hidden info_stat info_symlink_target info_attributes].

(** Whatever the value, [escape_xattr] returns, and what it stores under
    the key of the attribute is the encoding of the value. *)
Lemma escape_xattr_stores P info attr value (s : state P) :
  exists info' s',
    escape_xattr P info attr value s = Some (info', s') /\
    info_name info' = info_name info /\
    info_is_hidden info' = info_is_hidden info /\
    info_stat info' = info_stat info /\
    info_symlink_target info' = info_symlink_target info /\
    info_attributes info' = <[xattr_key attr := encode value]> (info_attributes info).
Proof.
  unfold escape_xattr.
  destruct (Z.eqb_spec (count_invalid value 0) 0) as [H0|Hn].
  - eexists _, s. split; [reflexivity|]. bag_fields. repeat split.
    apply count_invalid_some in H0.
    rewrite full_attr_key, encode_safe by exact H0.
    rewrite <- (encode_safe value) at 1 by exact H0.
    now rewrite (c_str_no_nul _ (encode_no_nul value)), encode_safe.
  - eexists _, _. split; [reflexivity|]. bag_fields. repeat split.
    rewrite full_attr_key, escape_loop_encode, string_app_nil_l.
    now rewrite (c_str_no_nul _ (encode_no_nul value)).
Qed.

(** C1: a value whose bytes all lie in 32..126 and differ from the escape
    character is stored verbatim under the key of the attribute, and the
    state of the run is unchanged: no buffer is requested for an escaped
    copy. *)
Theorem escape_xattr_verbatim (P : Platform) (info : GFileInfo)
    (attr value : string) (s : state P) :
  every (fun v => 32 <= byte_of v <= 126 /\ byte_of v <> 92) value ->
  exists info',
    escape_xattr P info attr value s = Some (info', s) /\
    info' = g_file_info_set_attribute info (xattr_key attr) value /\
    info_attributes info' !! xattr_key attr = Some value.
Proof.
  intros Hsafe.
  assert (Hs : every (fun v => safe_byte (byte_of v) = true) value).
  { revert Hsafe. apply every_impl. intros a [[H1 H2] H3]. unfold safe_byte.
    destruct (Z.leb_spec 32 (byte_of a)); [|lia].
    destruct (Z.leb_spec (byte_of a) 126); [|lia].
    destruct (Z.eqb_spec (byte_of a) 92); [lia | reflexivity]. }
  assert (Hc : c_str value = value).
  { apply c_str_no_nul. revert Hs. apply every_impl. apply safe_byte_not_nul. }
  unfold escape_xattr. rewrite (count_invalid_none _ Hs).
  change (0 =? 0) with true. cbv iota.
  eexists. split; [reflexivity|]. bag_fields.
  rewrite full_attr_key, Hc.
  assert (Hk : c_str (xattr_key attr) = xattr_key attr).
  { rewrite <- full_attr_key. apply c_str_idem. }
  rewrite Hk. split; [reflexivity | apply lookup_insert_eq].
Qed.

Lemma escape_xattr_verbatim_witness :
  every (fun v => 32 <= byte_of v <= 126 /\ byte_of v <> 92) "plain text" /\
  exists info',
    escape_xattr demo g_file_info_new "user.note" "plain text" start
      = Some (info', start) /\
    info' = g_file_info_set_attribute g_file_info_new (xattr_key "user.note") "plain text" /\
    info_attributes info' !! xattr_key "user.note" = Some "plain text".
Proof.
  assert (H : every (fun v => 32 <= byte_of v <= 126 /\ byte_of v <> 92) "plain text").
  { simpl. unfold byte_of. simpl. repeat split; lia. }
  split; [exact H|].
  exact (escape_xattr_verbatim demo g_file_info_new "user.note" "plain text" start H).
Defined.

(** C2, amended: whatever the value, what is stored under the key of the
    attribute is the value with every safe byte copied and every unsafe
    byte [c] replaced by the escape character, [x], the hexadecimal digit
    of [(c >> 8) & 0xF] and the hexadecimal digit of [c & 0xF]. *)
Theorem escape_xattr_encoding (P : Platform) (info : GFileInfo)
    (attr value : string) (s : state P) :
  exists info' s',
    escape_xattr P info attr value s = Some (info', s') /\
    info_attributes info' !! xattr_key attr = Some (encode value).
Proof.
  destruct (escape_xattr_stores P info attr value s)
    as (info' & s' & Hrun & _ & _ & _ & _ & Hattr).
  exists info', s'. split; [exact Hrun|].
  rewrite Hattr. apply lookup_insert_eq.
Qed.

(** C2, as stated, fails: the byte 0xFF is stored as [\x0f], while "the
    low nibble twice" would be [\xff]. *)
Lemma escape_xattr_not_low_nibble_twice :
  stored (xattr_key "user.k")
    (escape_xattr demo g_file_info_new "user.k"
       (String (ascii_of_nat 255) EmptyString) start) = Some "\x0f" /\
  encode_low_nibble_twice (String (ascii_of_nat 255) EmptyString) = "\xff" /\
  stored (xattr_key "user.k")
    (escape_xattr demo g_file_info_new "user.k"
       (String (ascii_of_nat 255) EmptyString) start)
    <> Some (encode_low_nibble_twice (String (ascii_of_nat 255) EmptyString)).
Proof.
  split; [vm_compute; reflexivity|].
  split; [vm_compute; reflexivity|].
  vm_compute. discriminate.
Qed.

Lemma escape_seq_first_zero v :
  escape_seq v
  = String "\" (String "x" (String "0"
      (String (hex_of (Z.land (byte_of v) 15)) EmptyString))).
Proof.
  unfold escape_seq. rewrite unsigned_char_of.
  rewrite (high_shift_zero _ (byte_of_range v)).
  rewrite !hex_digits_at by apply low_nibble_range. reflexivity.
Qed.

Lemma escape_xattr_one_unsafe P info attr v (s : state P) :
  safe_byte (byte_of v) = false ->
  escape_xattr P info attr (String v EmptyString) s
  = Some (g_file_info_set_attribute info (xattr_key attr) (escape_seq v),
          {| world := world s; log := log s ++ [Malloc 5] |}).
Proof.
  intros Hv. unfold escape_xattr. cbn [count_invalid].
  rewrite valid_char_byte, Hv. change (0 + 1 =? 0) with false. cbv iota.
  unfold mbind', g_malloc, emit, mreturn. cbn [escape_loop].
  rewrite valid_char_byte, Hv, string_app_nil_l.
  unfold g_file_info_set_attribute. rewrite full_attr_key.
  assert (Hk : c_str (xattr_key attr) = xattr_key attr).
  { rewrite <- full_attr_key. apply c_str_idem. }
  rewrite Hk. reflexivity.
Qed.

(** C9: for an unsafe byte [c] the first hexadecimal digit written is
    always [0], so that the byte is stored as the escape character, [x],
    [0] and the digit of [c & 0xF]; two unsafe bytes with the same low
    nibble are stored alike, as are 0x01 and 0x11: the transform is not
    injective. *)
Theorem escape_xattr_drops_high_nibble (P : Platform) (info : GFileInfo)
    (attr : string) (v : ascii) (s : state P) :
  safe_byte (byte_of v) = false ->
  Z.land (Z.shiftr (byte_of v) 8) 15 = 0 /\
  stored (xattr_key attr) (escape_xattr P info attr (String v EmptyString) s)
  = Some (String "\" (String "x" (String "0"
            (String (hex_of (Z.land (byte_of v) 15)) EmptyString)))) /\
  (forall v',
      safe_byte (byte_of v') = false ->
      Z.land (byte_of v') 15 = Z.land (byte_of v) 15 ->
      escape_xattr P info attr (String v' EmptyString) s
      = escape_xattr P info attr (String v EmptyString) s) /\
  String (ascii_of_nat 1) EmptyString <> String (ascii_of_nat 17) EmptyString /\
  escape_xattr P info attr (String (ascii_of_nat 1) EmptyString) s
  = escape_xattr P info attr (String (ascii_of_nat 17) EmptyString) s.
Proof.
  intros Hv. split; [| split; [| split; [| split]]].
  - now rewrite (high_shift_zero _ (byte_of_range v)).
  - rewrite (escape_xattr_one_unsafe P info attr v s Hv).
    unfold stored, g_file_info_set_attribute. cbn [info_attributes].
    assert (Hk : c_str (xattr_key attr) = xattr_key attr).
    { rewrite <- full_attr_key. apply c_str_idem. }
    rewrite Hk, lookup_insert_eq, escape_seq_first_zero. f_equal.
    apply c_str_no_nul. simpl. repeat split; try discriminate.
    apply hex_of_not_nul, low_nibble_range.
  - intros v' Hv' Hlow.
    rewrite (escape_xattr_one_unsafe P info attr v s Hv).
    rewrite (escape_xattr_one_unsafe P info attr v' s Hv').
    now rewrite !escape_seq_first_zero, Hlow.
  - discriminate.
  - now rewrite !escape_xattr_one_unsafe by reflexivity.
Qed.

Lemma escape_xattr_drops_high_nibble_witness :
  safe_byte (byte_of (ascii_of_nat 171)) = false /\
  stored (xattr_key "user.k")
    (escape_xattr demo g_file_info_new "user.k"
       (String (ascii_of_nat 171) EmptyString) start)
  = Some (String "\" (String "x" (String "0"
            (String (hex_of (Z.land (byte_of (ascii_of_nat 171)) 15)) EmptyString)))).
Proof.
  split; [reflexivity|].
  exact (proj1 (proj2
    (escape_xattr_drops_high_nibble demo g_file_info_new "user.k"
       (ascii_of_nat 171) start eq_refl))).
Defined.

(** ** Runs *)

Lemma sys_run P c (s : state P) : sys P c s = Some (answer s c, after s c).
Proof.
  unfold sys, answer, after. destruct (os P c (world s)) as [r w]. reflexivity.
Qed.

Lemma bind_run {P A B} (m : M P A) (k : A -> M P B) s a s1 :
  m s = Some (a, s1) -> mbind' m k s = k a s1.
Proof. unfold mbind'. now intros ->. Qed.

Lemma bind_inv {P A B} (m : M P A) (k : A -> M P B) s b s' :
  mbind' m k s = Some (b, s') ->
  exists a s1, m s = Some (a, s1) /\ k a s1 = Some (b, s').
Proof.
  unfold mbind'. destruct (m s) as [[a s1]|]; [eauto | discriminate].
Qed.

Lemma getx_run P (follow : bool) path attr size (s : state P) :
  (if follow then sys P (Sys_getxattr path attr size)
   else sys P (Sys_lgetxattr path attr size)) s
  = Some (answer s (getx follow path attr size), after s (getx follow path attr size)).
Proof. destruct follow; apply sys_run. Qed.

Lemma listx_run P (follow : bool) path size (s : state P) :
  (if follow then sys P (Sys_listxattr path size)
   else sys P (Sys_llistxattr path size)) s
  = Some (answer s (listx follow path size), after s (listx follow path size)).
Proof. destruct follow; apply sys_run. Qed.

Lemma stat_run P (follow : bool) path (s : state P) :
  (if follow then sys P (Sys_stat path) else sys P (Sys_lstat path)) s
  = Some (answer s (stat_call follow path), after s (stat_call follow path)).
Proof. destruct follow; apply sys_run. Qed.

Lemma starts_with_dot_char_at basename :
  match basename with
  | Some b => Ascii.eqb (char_at b 0) "."
  | None => false
  end = starts_with_dot basename.
Proof. destruct basename as [[|a b]|]; reflexivity. Qed.

(** ** MetadataCollector: the fast path and the fatal failure *)

(** C3: when the name and the hidden flag are requested, nothing else is,
    and no matcher is given, the call returns at once: whatever the fuel,
    the state is the one it started in, so that no call to the operating
    system has been made, and the bag holds the name and the hidden flag
    and nothing else. *)
Theorem simple_get_fast_path (P : Platform) (fuel : nat) (basename : option string)
    (path : string) (requested : Z) (follow_symlinks : bool) (s : state P) :
  requests requested (G_FILE_INFO_NAME P) = true ->
  requests requested (G_FILE_INFO_IS_HIDDEN P) = true ->
  only_name_and_hidden P requested = true ->
  g_file_info_simple_get P fuel basename path requested None follow_symlinks s
  = Some ((Some {| info_name := c_str <$> basename;
                   info_is_hidden := Some (starts_with_dot basename);
                   info_stat := None;
                   info_symlink_target := None;
                   info_attributes := ∅ |}, None), s) /\
  calls_of (logged (g_file_info_simple_get P fuel basename path requested None
                      follow_symlinks s)) = calls_of (log s).
Proof.
  intros Hname Hhidden Honly.
  assert (Hrun : g_file_info_simple_get P fuel basename path requested None follow_symlinks s
          = Some ((Some {| info_name := c_str <$> basename;
                   info_is_hidden := Some (starts_with_dot basename);
                   info_stat := None;
                   info_symlink_target := None;
                   info_attributes := ∅ |}, None), s)).
  { unfold g_file_info_simple_get. rewrite Hname, Hhidden.
    unfold only_name_and_hidden in Honly. rewrite Honly.
    rewrite starts_with_dot_char_at. reflexivity. }
  split; [exact Hrun | now rewrite Hrun].
Qed.

Lemma simple_get_fast_path_witness :
  requests 2050 (G_FILE_INFO_NAME demo) = true /\
  requests 2050 (G_FILE_INFO_IS_HIDDEN demo) = true /\
  only_name_and_hidden demo 2050 = true /\
  g_file_info_simple_get demo 0 (Some ".profile") "/missing/.profile" 2050 None true start
  = Some ((Some {| info_name := Some ".profile";
                   info_is_hidden := Some true;
                   info_stat := None;
                   info_symlink_target := None;
                   info_attributes := ∅ |}, None), start).
Proof.
  do 3 (split; [reflexivity|]).
  exact (proj1 (simple_get_fast_path demo 0 (Some ".profile") "/missing/.profile"
                  2050 true start eq_refl eq_refl eq_refl)).
Defined.

(** C4: when the stat call of the path-based entry point, or the fstat
    call of the descriptor-based one, returns -1, the entry point returns
    no bag and one error, whose code is the error kind that the errno of
    the failed call maps to; the run ends in the state the failed call
    left, nothing else having been done. *)
Theorem stat_failure_is_fatal (P : Platform) :
  (forall fuel basename path requested attribute_matcher follow_symlinks (s : state P),
      only_name_and_hidden P requested && is_null attribute_matcher = false ->
      ret (answer s (stat_call follow_symlinks path)) = -1 ->
      exists message,
        g_file_info_simple_get P fuel basename path requested attribute_matcher
          follow_symlinks s
        = Some ((None,
                 Some {| error_domain := G_FILE_ERROR;
                         error_code :=
                           g_file_error_from_errno P
                             (errno (answer s (stat_call follow_symlinks path)));
                         error_message := message |}),
                after s (stat_call follow_symlinks path))) /\
  (forall fd requested attributes (s : state P),
      ret (answer s (Sys_fstat fd)) = -1 ->
      g_file_info_simple_get_from_fd P fd requested attributes s
      = Some ((None,
               Some (g_vfs_error_from_errno P (errno (answer s (Sys_fstat fd))))),
              after s (Sys_fstat fd))).
Proof.
  split.
  - intros fuel basename path requested matcher follow s Hslow Hret.
    eexists. unfold g_file_info_simple_get.
    unfold only_name_and_hidden in Hslow. rewrite Hslow.
    rewrite (bind_run _ _ _ _ _ (stat_run P follow path s)).
    rewrite Hret. reflexivity.
  - intros fd requested attributes s Hret.
    unfold g_file_info_simple_get_from_fd.
    rewrite (bind_run _ _ _ _ _ (sys_run P (Sys_fstat fd) s)).
    rewrite Hret. reflexivity.
Qed.

Lemma stat_failure_is_fatal_witness :
  only_name_and_hidden demo 1 && is_null (@None GFileAttributeMatcher) = false /\
  ret (answer start (stat_call true "/missing")) = -1 /\
  (exists message,
      g_file_info_simple_get demo 1 (Some "missing") "/missing" 1 None true start
      = Some ((None,
               Some {| error_domain := G_FILE_ERROR; error_code := 1;
                       error_message := message |}),
              after start (Sys_stat "/missing"))) /\
  ret (answer start (Sys_fstat 7)) = -1 /\
  g_file_info_simple_get_from_fd demo 7 1 None start
  = Some ((None, Some (g_vfs_error_from_errno demo EBADF)), after start (Sys_fstat 7)).
Proof.
  split; [reflexivity|]. split; [reflexivity|]. split.
  - exact (proj1 (stat_failure_is_fatal demo) 1%nat (Some "missing") "/missing" 1
             None true start eq_refl eq_refl).
  - split; [reflexivity|].
    exact (proj2 (stat_failure_is_fatal demo) 7 1 None start eq_refl).
Defined.

(** ** What the collectors leave untouched *)

Lemma same_standard_refl info : same_standard info info.
Proof. repeat split. Qed.

Lemma same_standard_trans i1 i2 i3 :
  same_standard i1 i2 -> same_standard i2 i3 -> same_standard i1 i3.
Proof.
  unfold same_standard. intros (A1 & A2 & A3 & A4) (B1 & B2 & B3 & B4).
  repeat split; congruence.
Qed.

Lemma set_attribute_same info key value :
  same_standard info (g_file_info_set_attribute info key value).
Proof. repeat split. Qed.

Lemma malloc_run P n (s : state P) :
  g_malloc P n s = Some (tt, {| world := world s; log := log s ++ [Malloc n] |}).
Proof. reflexivity. Qed.

Lemma realloc_run P n (s : state P) :
  g_realloc P n s = Some (tt, {| world := world s; log := log s ++ [Realloc n] |}).
Proof. reflexivity. Qed.

(** One step of a run: the first action of a sequence is a call or a
    request for a buffer. *)
Ltac step :=
  first
    [ rewrite (bind_run _ _ _ _ _ (getx_run _ _ _ _ _ _))
    | rewrite (bind_run _ _ _ _ _ (listx_run _ _ _ _ _))
    | rewrite (bind_run _ _ _ _ _ (stat_run _ _ _ _))
    | rewrite (bind_run _ _ _ _ _ (sys_run _ _ _))
    | rewrite (bind_run _ _ _ _ _ (malloc_run _ _ _))
    | rewrite (bind_run _ _ _ _ _ (realloc_run _ _ _)) ].

Lemma escape_xattr_total P info attr value (s : state P) :
  exists info' s',
    escape_xattr P info attr value s = Some (info', s') /\ same_standard info info'.
Proof.
  destruct (escape_xattr_stores P info attr value s)
    as (info' & s' & Hrun & H1 & H2 & H3 & H4 & _).
  exists info', s'. repeat split; assumption.
Qed.

Lemma get_one_xattr_total P path info attr follow (s : state P) :
  exists info' s',
    get_one_xattr P path info attr follow s = Some (info', s') /\
    same_standard info info'.
Proof.
  unfold get_one_xattr. step.
  destruct (ret (answer s (getx follow path attr (64 - 1))) >=? 0);
    [apply escape_xattr_total|].
  match goal with |- context [if ?c then _ else _] => destruct c end;
    [| eexists _, _; split; [reflexivity | apply same_standard_refl]].
  step.
  match goal with |- context [if ?c then _ else _] => destruct c end;
    [eexists _, _; split; [reflexivity | apply same_standard_refl]|].
  step. step.
  match goal with |- context [if ?c then _ else _] => destruct c end;
    [eexists _, _; split; [reflexivity | apply same_standard_refl]|].
  apply escape_xattr_total.
Qed.

Lemma walk_names_total P n path info attr list_res_size follow (s : state P) :
  exists info' s',
    walk_names P n path info attr list_res_size follow s = Some (info', s') /\
    same_standard info info'.
Proof.
  revert info attr list_res_size s.
  induction n as [|n IH]; intros info attr list_res_size s; simpl.
  - eexists _, _. split; [reflexivity | apply same_standard_refl].
  - destruct (list_res_size >? 0);
      [| eexists _, _; split; [reflexivity | apply same_standard_refl]].
    destruct (get_one_xattr_total P path info (c_str attr) follow s)
      as (info1 & s1 & Hone & Hsame1).
    rewrite (bind_run _ _ _ _ _ Hone).
    edestruct IH as (info2 & s2 & Hrest & Hsame2).
    eexists _, _. split; [exact Hrest|].
    eapply same_standard_trans; eassumption.
Qed.

Lemma each_key_total P keys path info follow (s : state P) :
  exists info' s',
    each_key P keys path info follow s = Some (info', s') /\
    same_standard info info'.
Proof.
  revert info s. induction keys as [|attr keys IH]; intros info s; simpl.
  - eexists _, _. split; [reflexivity | apply same_standard_refl].
  - destruct (get_one_xattr_total P path info attr follow s)
      as (info1 & s1 & Hone & Hsame1).
    rewrite (bind_run _ _ _ _ _ Hone).
    destruct (IH info1 s1) as (info2 & s2 & Hrest & Hsame2).
    eexists _, _. split; [exact Hrest|].
    eapply same_standard_trans; eassumption.
Qed.

Lemma get_selinux_context_total P path info matcher follow (s : state P) :
  exists info' s',
    get_selinux_context P path info matcher follow s = Some (info', s') /\
    same_standard info info'.
Proof.
  unfold get_selinux_context.
  destruct (HAVE_SELINUX P);
    [| eexists _, _; split; [reflexivity | apply same_standard_refl]].
  destruct (negb _);
    [eexists _, _; split; [reflexivity | apply same_standard_refl]|].
  step.
  destruct (ret _ =? 0);
    [eexists _, _; split; [reflexivity | apply same_standard_refl]|].
  destruct follow; step;
    (destruct (ret _ <? 0);
      [eexists _, _; split; [reflexivity | apply same_standard_refl]|]);
    (destruct (out _);
      eexists _, _; (split; [reflexivity|]);
      [apply set_attribute_same | apply same_standard_refl]).
Qed.

Lemma get_xattrs_same P fuel path info matcher follow (s : state P) info' s' :
  get_xattrs P fuel path info matcher follow s = Some (info', s') ->
  same_standard info info'.
Proof.
  unfold get_xattrs.
  destruct (g_file_attribute_matcher_enumerate matcher "xattr").
  - step.
    destruct (_ || _); [intros [= <- _]; apply same_standard_refl|].
    step. intros H. apply bind_inv in H. destruct H as (r & s1 & _ & H).
    destruct (ret r =? -1); [injection H as <- _; apply same_standard_refl|].
    edestruct walk_names_total as (info2 & s2 & Hwalk & Hsame).
    rewrite Hwalk in H. injection H as <- _. exact Hsame.
  - intros H.
    edestruct each_key_total as (info2 & s2 & Hkeys & Hsame).
    rewrite Hkeys in H. injection H as <- _. exact Hsame.
Qed.

(** ** Fuel *)

Lemma read_link_loop_mono P fuel fuel' full_name size (s : state P) x :
  read_link_loop P fuel full_name size s = Some x ->
  (fuel <= fuel')%nat ->
  read_link_loop P fuel' full_name size s = Some x.
Proof.
  revert fuel' size s. induction fuel as [|fuel IH]; intros fuel' size s; [discriminate|].
  destruct fuel' as [|fuel']; [lia|]. intros H Hle.
  cbn [read_link_loop] in *. revert H. do 2 step.
  destruct (to_int _ <? 0); [trivial|].
  destruct (to_int _ <? size); [trivial|].
  do 2 step. intros H. apply IH; [exact H | lia].
Qed.

Lemma read_link_mono P fuel fuel' full_name (s : state P) x :
  read_link P fuel full_name s = Some x ->
  (fuel <= fuel')%nat ->
  read_link P fuel' full_name s = Some x.
Proof.
  unfold read_link. do 2 step. apply read_link_loop_mono.
Qed.

Lemma list_retry_settles P path follow size w :
  settles P path follow size w ->
  forall s : state P, world s = w ->
  exists fuel0, forall fuel, (fuel0 <= fuel)%nat ->
    exists r s', list_retry P fuel path size follow s = Some (r, s').
Proof.
  induction 1 as [size w Hnow | size w Hlater _ IH]; intros s Hw; subst w.
  - exists 1%nat. intros [|fuel] Hle; [lia|].
    cbn [list_retry]. step. unfold answer. rewrite Hnow. eauto.
  - destruct (IH {| world := world (after s (listx follow path size));
                    log := log (after s (listx follow path size))
                             ++ [Realloc (to_gsize (size * 2))] |} eq_refl)
      as (fuel0 & Hfuel0).
    exists (S fuel0). intros [|fuel] Hle; [lia|].
    cbn [list_retry]. step. unfold answer at 1 2. rewrite Hlater. step.
    apply Hfuel0. lia.
Qed.

Lemma get_xattrs_total P path info matcher follow (s : state P) :
  (forall size w, settles P path follow size w) ->
  exists fuel0, forall fuel, (fuel0 <= fuel)%nat ->
    exists info' s', get_xattrs P fuel path info matcher follow s = Some (info', s').
Proof.
  intros Hsettles. unfold get_xattrs.
  destruct (g_file_attribute_matcher_enumerate matcher "xattr").
  - destruct (list_retry_settles P path follow
                (to_gsize (ret (answer s (listx follow path 0)))) _
                (Hsettles _ _)
                {| world := world (after s (listx follow path 0));
                   log := log (after s (listx follow path 0))
                            ++ [Malloc (to_gsize (ret (answer s (listx follow path 0))))] |}
                eq_refl) as (fuel0 & Hfuel0).
    exists fuel0. intros fuel Hle. step.
    destruct (_ || _); [eauto|].
    step. destruct (Hfuel0 fuel Hle) as (r & s1 & Hretry).
    rewrite (bind_run _ _ _ _ _ Hretry).
    destruct (ret r =? -1); [eauto|].
    edestruct walk_names_total as (info2 & s2 & Hwalk & _). eauto.
  - exists 0%nat. intros fuel _.
    edestruct each_key_total as (info2 & s2 & Hkeys & _). eauto.
Qed.

(** ** MetadataCollector: the hidden flag *)

Lemma first_stores_hidden P basename requested :
  requests requested (G_FILE_INFO_IS_HIDDEN P) = true ->
  info_is_hidden
    (if requests requested (G_FILE_INFO_IS_HIDDEN P)
     then g_file_info_set_is_hidden
            (if requests requested (G_FILE_INFO_NAME P)
             then g_file_info_set_name g_file_info_new basename
             else g_file_info_new)
            (match basename with
             | Some b => Ascii.eqb (char_at b 0) "."
             | None => false
             end)
     else
       if requests requested (G_FILE_INFO_NAME P)
       then g_file_info_set_name g_file_info_new basename
       else g_file_info_new)
  = Some (starts_with_dot basename).
Proof. intros ->. now rewrite starts_with_dot_char_at. Qed.

Lemma simple_get_keeps_hidden P fuel basename path requested attribute_matcher
    follow_symlinks (s : state P) info e s' :
  requests requested (G_FILE_INFO_IS_HIDDEN P) = true ->
  g_file_info_simple_get P fuel basename path requested attribute_matcher
    follow_symlinks s = Some ((Some info, e), s') ->
  info_is_hidden info = Some (starts_with_dot basename).
Proof.
  intros Hhidden.
  pose proof (first_stores_hidden P basename requested Hhidden) as Hfirst.
  unfold g_file_info_simple_get. fold (only_name_and_hidden P requested).
  destruct (only_name_and_hidden P requested && is_null attribute_matcher).
  - intros [= <- _ _]. exact Hfirst.
  - step. destruct (ret _ =? -1); [discriminate|].
    intros H. apply bind_inv in H. destruct H as (info1 & s1 & H1 & H).
    apply bind_inv in H. destruct H as (info2 & s2 & H2 & H).
    apply bind_inv in H. destruct H as (info3 & s3 & H3 & H).
    injection H as <- _ _.
    apply get_xattrs_same in H3. destruct H3 as (_ & -> & _).
    edestruct get_selinux_context_total as (i & t & Hsel & Hsame).
    rewrite Hsel in H2. injection H2 as <- _. destruct Hsame as (_ & -> & _).
    destruct (requests requested (G_FILE_INFO_SYMLINK_TARGET P)).
    + apply bind_inv in H1. destruct H1 as (link & t1 & _ & H1).
      injection H1 as <- _. exact Hfirst.
    + injection H1 as <- _. exact Hfirst.
Qed.

(** Off the fast path, the entry point returns a bag as soon as the stat
    call succeeds, the resolution of the symlink target, if requested,
    returns, and the listing of the extended attributes settles. *)
Lemma simple_get_slow_path P fuel basename path requested attribute_matcher
    follow_symlinks (s : state P) :
  only_name_and_hidden P requested && is_null attribute_matcher = false ->
  ret (answer s (stat_call follow_symlinks path)) <> -1 ->
  (requests requested (G_FILE_INFO_SYMLINK_TARGET P) = true ->
   exists link s2,
     read_link P fuel path (after s (stat_call follow_symlinks path))
     = Some (link, s2)) ->
  (forall size w, settles P path follow_symlinks size w) ->
  exists fuel' info s',
    g_file_info_simple_get P fuel' basename path requested attribute_matcher
      follow_symlinks s = Some ((Some info, None), s').
Proof.
  intros Hslow Hstat Hlink Hsettles.
  assert (Hrest : exists info2 s2, forall fuel', (fuel <= fuel')%nat ->
      g_file_info_simple_get P fuel' basename path requested attribute_matcher
        follow_symlinks s
      = mbind' (get_selinux_context P path info2 attribute_matcher follow_symlinks)
          (fun info =>
             mbind' (get_xattrs P fuel' path info attribute_matcher follow_symlinks)
               (fun info => mreturn (Some info, None))) s2).
  { destruct (requests requested (G_FILE_INFO_SYMLINK_TARGET P)) eqn:Hreq.
    - destruct (Hlink eq_refl) as (link & s2 & Hread).
      eexists _, s2. intros fuel' Hle. unfold g_file_info_simple_get.
      fold (only_name_and_hidden P requested). rewrite Hslow. step.
      destruct (Z.eqb_spec (ret (answer s (stat_call follow_symlinks path))) (-1));
        [contradiction|].
      rewrite Hreq.
      rewrite (bind_run _ _ _ _ _
                 (bind_run _ _ _ _ _ (read_link_mono P _ _ _ _ _ Hread Hle))).
      reflexivity.
    - eexists _, _. intros fuel' _. unfold g_file_info_simple_get.
      fold (only_name_and_hidden P requested). rewrite Hslow. step.
      destruct (Z.eqb_spec (ret (answer s (stat_call follow_symlinks path))) (-1));
        [contradiction|].
      rewrite Hreq. reflexivity. }
  destruct Hrest as (info2 & s2 & Hrest).
  destruct (get_selinux_context_total P path info2 attribute_matcher
              follow_symlinks s2) as (info3 & s3 & Hsel & _).
  destruct (get_xattrs_total P path info3 attribute_matcher follow_symlinks s3
              Hsettles) as (fuel0 & Hfuel0).
  destruct (Hfuel0 (Nat.max fuel fuel0) (Nat.le_max_r _ _)) as (info4 & s4 & Hx).
  exists (Nat.max fuel fuel0), info4, s4.
  now rewrite (Hrest _ (Nat.le_max_l _ _)), (bind_run _ _ _ _ _ Hsel),
    (bind_run _ _ _ _ _ Hx).
Qed.

(** C10: when the hidden flag is requested, every bag that the path-based
    entry point returns holds the hidden flag, with the value "the base
    name is not NULL and its first character is a dot", so with the value
    false when the base name is NULL.  The bag is returned: on the fast
    path at once, whatever the fuel; off it, with enough fuel, when the
    stat call succeeds, the resolution of the symlink target, if
    requested, returns, and the listing of the extended attributes
    settles. *)
Theorem simple_get_is_hidden (P : Platform) (fuel : nat) (basename : option string)
    (path : string) (requested : Z) (attribute_matcher : option GFileAttributeMatcher)
    (follow_symlinks : bool) (s : state P) :
  requests requested (G_FILE_INFO_IS_HIDDEN P) = true ->
  (forall fuel' info e s',
      g_file_info_simple_get P fuel' basename path requested attribute_matcher
        follow_symlinks s = Some ((Some info, e), s') ->
      info_is_hidden info = Some (starts_with_dot basename)) /\
  (only_name_and_hidden P requested && is_null attribute_matcher = true ->
   exists info,
     g_file_info_simple_get P fuel basename path requested attribute_matcher
       follow_symlinks s = Some ((Some info, None), s) /\
     info_is_hidden info = Some (starts_with_dot basename)) /\
  (only_name_and_hidden P requested && is_null attribute_matcher = false ->
   ret (answer s (stat_call follow_symlinks path)) <> -1 ->
   (requests requested (G_FILE_INFO_SYMLINK_TARGET P) = true ->
    exists link s2,
      read_link P fuel path (after s (stat_call follow_symlinks path))
      = Some (link, s2)) ->
   (forall size w, settles P path follow_symlinks size w) ->
   exists fuel' info s',
     g_file_info_simple_get P fuel' basename path requested attribute_matcher
       follow_symlinks s = Some ((Some info, None), s') /\
     info_is_hidden info = Some (starts_with_dot basename)) /\
  (basename = None -> starts_with_dot basename = false) /\
  (starts_with_dot basename = true <->
   exists b, basename = Some b /\ char_at b 0 = "."%char).
Proof.
  intros Hhidden. split; [| split; [| split; [| split]]].
  - intros fuel' info e s'. now apply simple_get_keeps_hidden.
  - intros Hfast. unfold g_file_info_simple_get.
    fold (only_name_and_hidden P requested). rewrite Hfast.
    eexists. split; [reflexivity | now apply first_stores_hidden].
  - intros Hslow Hstat Hlink Hsettles.
    destruct (simple_get_slow_path P fuel basename path requested attribute_matcher
                follow_symlinks s Hslow Hstat Hlink Hsettles)
      as (fuel' & info & s' & Hrun).
    exists fuel', info, s'. split; [exact Hrun|].
    eapply simple_get_keeps_hidden; eassumption.
  - now intros ->.
  - split.
    + destruct basename as [[|a b]|]; try discriminate. intros H.
      exists (String a b). split; [reflexivity|].
      now apply Ascii.eqb_eq in H.
    + intros (b & -> & H). destruct b as [|a b]; [discriminate H|].
      apply Ascii.eqb_eq. exact H.
Qed.

Lemma simple_get_is_hidden_witness :
  requests 2048 (G_FILE_INFO_IS_HIDDEN demo) = true /\
  only_name_and_hidden demo 2048 && is_null (@None GFileAttributeMatcher) = true /\
  exists info,
    g_file_info_simple_get demo 0 None "/file" 2048 None false start
    = Some ((Some info, None), start) /\
    info_is_hidden info = Some false.
Proof.
  do 2 (split; [reflexivity|]).
  exact (proj1 (proj2
    (simple_get_is_hidden demo 0 None "/file" 2048 None false start eq_refl)) eq_refl).
Defined.

(** ** SymlinkResolver *)

Lemma to_int_id z : - 2 ^ 31 <= z < 2 ^ 31 -> to_int z = z.
Proof. intros H. unfold to_int. rewrite Z.mod_small by lia. lia. Qed.

Lemma to_guint_id z : 0 <= z < 2 ^ 32 -> to_guint z = z.
Proof. intros H. unfold to_guint. now rewrite Z.mod_small. Qed.

Lemma os_answer P c (s : state P) :
  os P c (world s) = (answer s c, world (after s c)).
Proof. unfold answer, after. cbn [world]. apply surjective_pairing. Qed.

Section ReadLink.

Variable P : Platform.
Variable full_name : string.

(** The lengths that readlink returns fit an [int]. *)
Hypothesis fits_int :
  forall size w,
    - 2 ^ 31 <= ret (fst (os P (Sys_readlink full_name size) w)) < 2 ^ 31.

Lemma read_link_loop_sound fuel size (s : state P) res s' :
  0 <= size ->
  read_link_loop P fuel full_name size s = Some (res, s') ->
  resolves P full_name size (world s) res (world s').
Proof.
  revert size s. induction fuel as [|fuel IH]; intros size s Hsize; [discriminate|].
  cbn [read_link_loop]. step.
  pose proof (fits_int size (world s)) as Hfit. fold (answer s (Sys_readlink full_name size)) in Hfit.
  rewrite (to_int_id _ Hfit).
  pose proof (os_answer P (Sys_readlink full_name size) s) as Hos.
  destruct (Z.ltb_spec (ret (answer s (Sys_readlink full_name size))) 0) as [Hneg|Hpos].
  { intros [= <- <-]. eapply resolves_failure; eassumption. }
  destruct (Z.ltb_spec (ret (answer s (Sys_readlink full_name size))) size) as [Hlt|Hge].
  { intros [= <- <-]. eapply resolves_fits; [eassumption | lia]. }
  step. rewrite to_guint_id by lia. intros Hloop.
  apply IH in Hloop; [| lia].
  eapply resolves_doubles; [eassumption | lia |].
  replace (2 * size) with (size * 2) by lia. exact Hloop.
Qed.

Lemma read_link_loop_complete size w res w' :
  resolves P full_name size w res w' ->
  0 <= size ->
  forall s : state P, world s = w ->
  exists fuel s',
    read_link_loop P fuel full_name size s = Some (res, s') /\ world s' = w'.
Proof.
  induction 1 as [size w r w' Hos Hneg | size w r w' Hos Hfit
                  | size w r w1 res w' Hos Hge _ IH];
    intros Hsize s Hw; subst w;
    pose proof (fits_int size (world s)) as Hint;
    pose proof (os_answer P (Sys_readlink full_name size) s) as Hans;
    rewrite Hos in Hint; rewrite Hos in Hans; cbn [fst] in Hint;
    injection Hans as Hr Hw'.
  - exists 1%nat. eexists. cbn [read_link_loop]. step. rewrite <- Hr.
    rewrite (to_int_id _ Hint).
    destruct (Z.ltb_spec (ret r) 0); [| lia].
    split; [reflexivity | now rewrite Hw'].
  - exists 1%nat. eexists. cbn [read_link_loop]. step. rewrite <- Hr.
    rewrite (to_int_id _ Hint).
    destruct (Z.ltb_spec (ret r) 0); [lia|].
    destruct (Z.ltb_spec (ret r) size); [| lia].
    split; [reflexivity | now rewrite Hw'].
  - destruct (IH ltac:(lia)
                {| world := world (after s (Sys_readlink full_name size));
                   log := log (after s (Sys_readlink full_name size))
                            ++ [Realloc (2 * size)] |}
                (eq_sym Hw')) as (fuel & s' & Hloop & Hworld).
    exists (S fuel), s'. cbn [read_link_loop]. step. rewrite <- Hr.
    rewrite (to_int_id _ Hint).
    destruct (Z.ltb_spec (ret r) 0); [lia|].
    destruct (Z.ltb_spec (ret r) size); [lia|].
    step. rewrite to_guint_id by lia.
    replace (size * 2) with (2 * size) by lia.
    split; [exact Hloop | exact Hworld].
Qed.

Variable target : string.

(** The link does not change while it is read. *)
Hypothesis stable :
  forall size w,
    0 < size ->
    fst (os P (Sys_readlink full_name size) w) = readlink_answer target size.

Lemma target_fits_int (w : W P) : Z.of_nat (String.length target) < 2 ^ 31.
Proof.
  pose proof (fits_int (2 ^ 31) w) as H. rewrite stable in H by lia.
  cbn [ret readlink_answer] in H. lia.
Qed.

Lemma buffer_whole size :
  Z.of_nat (String.length target) < size ->
  buffer (readlink_answer target size) (Z.of_nat (String.length target)) = target.
Proof.
  intros H. unfold buffer, readlink_answer. cbn [out].
  change (default EmptyString (Some ?x)) with x.
  rewrite Nat2Z.id, (substring_all target (Z.to_nat size)) by lia.
  apply substring_all. lia.
Qed.

Lemma read_link_loop_whole fuel size (s : state P) :
  0 < size < 2 ^ 32 ->
  Z.of_nat (String.length target) < size * 2 ^ Z.of_nat fuel ->
  exists s', read_link_loop P (S fuel) full_name size s = Some (Some target, s').
Proof.
  pose proof (target_fits_int (world s)) as Hn.
  assert (Hret : forall size,
             ret (readlink_answer target size)
             = Z.min size (Z.of_nat (String.length target))) by reflexivity.
  revert size s. induction fuel as [|fuel IH]; intros size s Hsize Hfuel;
    cbn [read_link_loop]; step; unfold answer; rewrite stable by lia;
    destruct (Z.lt_ge_cases (Z.of_nat (String.length target)) size) as [Hlt|Hge].
  - rewrite Hret, Z.min_r, (to_int_id (Z.of_nat (String.length target))) by lia.
    destruct (Z.ltb_spec (Z.of_nat (String.length target)) 0); [lia|].
    destruct (Z.ltb_spec (Z.of_nat (String.length target)) size); [| lia].
    rewrite buffer_whole by lia. eauto.
  - change (2 ^ Z.of_nat 0) with 1 in Hfuel. lia.
  - rewrite Hret, Z.min_r, (to_int_id (Z.of_nat (String.length target))) by lia.
    destruct (Z.ltb_spec (Z.of_nat (String.length target)) 0); [lia|].
    destruct (Z.ltb_spec (Z.of_nat (String.length target)) size); [| lia].
    rewrite buffer_whole by lia. eauto.
  - rewrite Hret, Z.min_l, (to_int_id size) by lia.
    destruct (Z.ltb_spec size 0); [lia|].
    destruct (Z.ltb_spec size size); [lia|].
    step. rewrite to_guint_id by lia.
    apply IH; [lia|].
    rewrite Nat2Z.inj_succ, Z.pow_succ_r in Hfuel by lia. lia.
Qed.

End ReadLink.

Lemma read_link_loop_log P fuel full_name size (s : state P) x s' :
  read_link_loop P fuel full_name size s = Some (x, s') ->
  exists l, log s' = log s ++ l.
Proof.
  revert size s. induction fuel as [|fuel IH]; intros size s; [discriminate|].
  cbn [read_link_loop]. step.
  destruct (to_int _ <? 0); [intros [= _ <-]; cbn [log after]; eauto|].
  destruct (to_int _ <? size); [intros [= _ <-]; cbn [log after]; eauto|].
  step. intros H. apply IH in H. destruct H as (l & ->). cbn [log after].
  rewrite <- !List.app_assoc. eauto.
Qed.

(** C7: [read_link] follows the protocol of the resolver.  Where readlink
    returns lengths that fit an [int], a run that returns has started with
    a buffer of 256 bytes and doubled it until a call failed (the result
    is then NULL) or returned a length strictly below the size of the
    buffer (the result is then these bytes); and every outcome of the
    protocol is the result of a run with enough fuel.  For a link whose
    target does not change, 24 rounds return the whole target, and when
    the target is longer than 255 bytes the first call, with 256 bytes,
    is followed by a doubling to 512. *)
Theorem read_link_resolves (P : Platform) (full_name : string) :
  (forall size w,
      - 2 ^ 31 <= ret (fst (os P (Sys_readlink full_name size) w)) < 2 ^ 31) ->
  (forall fuel (s : state P) res s',
      read_link P fuel full_name s = Some (res, s') ->
      resolves P full_name 256 (world s) res (world s')) /\
  (forall (s : state P) res w',
      resolves P full_name 256 (world s) res w' ->
      exists fuel s', read_link P fuel full_name s = Some (res, s') /\ world s' = w') /\
  (forall target,
      (forall size w,
          0 < size ->
          fst (os P (Sys_readlink full_name size) w) = readlink_answer target size) ->
      forall s : state P,
      exists s',
        read_link P 24 full_name s = Some (Some target, s') /\
        (255 < Z.of_nat (String.length target) ->
         exists l,
           log s' = log s ++ Malloc 256
                      :: Call (Sys_readlink full_name 256) (readlink_answer target 256)
                      :: Realloc 512 :: l)).
Proof.
  intros Hfits. split; [| split].
  - intros fuel s res s'. unfold read_link. step. intros H.
    apply (read_link_loop_sound P full_name Hfits) in H; [exact H | lia].
  - intros s res w' H.
    destruct (read_link_loop_complete P full_name Hfits 256 (world s) res w' H
                ltac:(lia)
                {| world := world s; log := log s ++ [Malloc 256] |} eq_refl)
      as (fuel & s' & Hloop & Hworld).
    exists fuel, s'. unfold read_link. step. auto.
  - intros target Hstable s.
    pose proof (target_fits_int P full_name Hfits target Hstable (world s)) as Hn.
    unfold read_link. step.
    destruct (Z.lt_ge_cases 255 (Z.of_nat (String.length target))) as [Hlong|Hshort].
    + cbn [read_link_loop]. step. unfold answer. cbn [world].
      rewrite Hstable by lia.
      assert (Hret : ret (readlink_answer target 256) = 256).
      { unfold readlink_answer. cbn [ret]. lia. }
      rewrite Hret. change (to_int 256 <? 0) with false.
      change (to_int 256 <? 256) with false. cbv iota. step.
      change (to_guint (256 * 2)) with 512.
      edestruct (read_link_loop_whole P full_name Hfits target Hstable 22 512)
        as (s' & Hloop); [lia | | ].
      { change (2 ^ Z.of_nat 22) with 4194304. lia. }
      exists s'. split; [exact Hloop|]. intros _.
      apply read_link_loop_log in Hloop. destruct Hloop as (l & ->).
      exists l. cbn [log after]. unfold answer. cbn [world].
      rewrite Hstable by lia. rewrite <- !List.app_assoc. reflexivity.
    + edestruct (read_link_loop_whole P full_name Hfits target Hstable 23 256)
        as (s' & Hloop); [lia | | ].
      { change (2 ^ Z.of_nat 23) with 8388608. lia. }
      exists s'. split; [exact Hloop | lia].
Qed.

Lemma demo_readlink_fits size w :
  - 2 ^ 31 <= ret (fst (os demo (Sys_readlink "/link" size) w)) < 2 ^ 31.
Proof.
  cbn. destruct (Z.leb_spec size 0); cbn; lia.
Qed.

Lemma demo_readlink_stable size w :
  0 < size ->
  fst (os demo (Sys_readlink "/link" size) w) = readlink_answer demo_target size.
Proof.
  intros H. cbn. destruct (Z.leb_spec size 0); [lia | reflexivity].
Qed.

Lemma read_link_resolves_witness :
  (forall size w,
      - 2 ^ 31 <= ret (fst (os demo (Sys_readlink "/link" size) w)) < 2 ^ 31) /\
  (forall size w,
      0 < size ->
      fst (os demo (Sys_readlink "/link" size) w) = readlink_answer demo_target size) /\
  255 < Z.of_nat (String.length demo_target) /\
  exists s',
    read_link demo 24 "/link" start = Some (Some demo_target, s') /\
    (255 < Z.of_nat (String.length demo_target) ->
     exists l,
       log s' = log start ++ Malloc 256
                  :: Call (Sys_readlink "/link" 256) (readlink_answer demo_target 256)
                  :: Realloc 512 :: l).
Proof.
  split; [exact demo_readlink_fits|].
  split; [exact demo_readlink_stable|].
  split; [reflexivity|].
  exact (proj2 (proj2 (read_link_resolves demo "/link" demo_readlink_fits))
           demo_target demo_readlink_stable start).
Defined.

(** ** ExtendedAttributeCollector: one attribute *)

Lemma escape_xattr_log P info attr value (s : state P) info' s' :
  escape_xattr P info attr value s = Some (info', s') ->
  exists l, log s' = log s ++ l /\ calls_of l = [].
Proof.
  unfold escape_xattr. destruct (_ =? 0).
  - intros [= _ <-]. exists []. now rewrite List.app_nil_r.
  - step. intros [= _ <-]. eexists. split; reflexivity.
Qed.

Lemma sized_answer_small value size :
  0 < size < Z.of_nat (String.length value) ->
  sized_answer value size = {| ret := -1; errno := ERANGE; out := None |}.
Proof.
  intros H. unfold sized_answer.
  destruct (Z.eqb_spec size 0); [lia|].
  destruct (Z.ltb_spec size (Z.of_nat (String.length value))); [reflexivity | lia].
Qed.

Lemma sized_answer_probe value :
  sized_answer value 0
  = {| ret := Z.of_nat (String.length value); errno := 0; out := None |}.
Proof. reflexivity. Qed.

Lemma sized_answer_exact value :
  0 < Z.of_nat (String.length value) ->
  sized_answer value (Z.of_nat (String.length value))
  = {| ret := Z.of_nat (String.length value); errno := 0; out := Some value |}.
Proof.
  intros H. unfold sized_answer.
  destruct (Z.eqb_spec (Z.of_nat (String.length value)) 0); [lia|].
  now rewrite Z.ltb_irrefl.
Qed.

(** C8, amended: an attribute whose value is longer than 63 bytes, and
    does not change while it is read, is fetched whole.  The first call,
    with the 63 bytes of the stack buffer, is answered ERANGE; a call of
    size 0 returns the length; a buffer of the length plus one byte (for
    the terminating NUL) is requested; a call of exactly the length
    fetches the value; and the encoding of the value is stored under the
    key of the attribute.  No other call is made. *)
Theorem get_one_xattr_long_value (P : Platform) (path attr value : string)
    (follow_symlinks : bool) (info : GFileInfo) (s : state P) :
  63 < Z.of_nat (String.length value) ->
  (forall size w,
      fst (os P (getx follow_symlinks path attr size) w) = sized_answer value size) ->
  exists info' s' l,
    get_one_xattr P path info attr follow_symlinks s = Some (info', s') /\
    info_attributes info' !! xattr_key attr = Some (encode value) /\
    log s'
    = log s
        ++ [Call (getx follow_symlinks path attr 63) (sized_answer value 63);
            Call (getx follow_symlinks path attr 0) (sized_answer value 0);
            Malloc (Z.of_nat (String.length value) + 1);
            Call (getx follow_symlinks path attr (Z.of_nat (String.length value)))
              (sized_answer value (Z.of_nat (String.length value)))]
        ++ l /\
    calls_of l = [].
Proof.
  intros Hlong Hstable.
  assert (Hans : forall (t : state P) size,
             answer t (getx follow_symlinks path attr size) = sized_answer value size).
  { intros t size. apply Hstable. }
  unfold get_one_xattr. change (64 - 1) with 63.
  step. rewrite !Hans, sized_answer_small by lia. cbn [ret errno].
  change (-1 >=? 0) with false. change ((-1 =? -1) && (ERANGE =? ERANGE)) with true.
  cbv iota. step. rewrite !Hans, sized_answer_probe. cbn [ret].
  destruct (Z.ltb_spec (Z.of_nat (String.length value)) 0); [lia|].
  do 2 step. rewrite !Hans, sized_answer_exact by lia. cbn [ret].
  destruct (Z.ltb_spec (Z.of_nat (String.length value)) 0); [lia|].
  unfold buffer. cbn [out].
  change (default EmptyString (Some value)) with value.
  rewrite Nat2Z.id, substring_all by lia.
  match goal with
  | |- context [escape_xattr P info attr value ?s1] =>
      destruct (escape_xattr_stores P info attr value s1)
        as (info' & s' & Hrun & _ & _ & _ & _ & Hattr);
      destruct (escape_xattr_log P info attr value s1 info' s' Hrun)
        as (l & Hlog & Hcalls)
  end.
  exists info', s', l. split; [exact Hrun|].
  split; [rewrite Hattr; apply lookup_insert_eq|].
  split; [| exact Hcalls].
  rewrite Hlog. cbn [log after world].
  rewrite !Hstable, sized_answer_small, sized_answer_probe, sized_answer_exact by lia.
  rewrite <- !List.app_assoc. reflexivity.
Qed.

Lemma demo_getxattr_stable (follow : bool) size w :
  fst (os demo (getx follow "/file" "user.big" size) w) = sized_answer demo_value size.
Proof. destruct follow; reflexivity. Qed.

Lemma get_one_xattr_long_value_witness :
  63 < Z.of_nat (String.length demo_value) /\
  (forall size w,
      fst (os demo (getx true "/file" "user.big" size) w)
      = sized_answer demo_value size) /\
  exists info' s' l,
    get_one_xattr demo "/file" g_file_info_new "user.big" true start = Some (info', s') /\
    info_attributes info' !! xattr_key "user.big" = Some (encode demo_value) /\
    log s'
    = log start
        ++ [Call (getx true "/file" "user.big" 63) (sized_answer demo_value 63);
            Call (getx true "/file" "user.big" 0) (sized_answer demo_value 0);
            Malloc (Z.of_nat (String.length demo_value) + 1);
            Call (getx true "/file" "user.big" (Z.of_nat (String.length demo_value)))
              (sized_answer demo_value (Z.of_nat (String.length demo_value)))]
        ++ l /\
    calls_of l = [].
Proof.
  split; [reflexivity|].
  split; [exact (demo_getxattr_stable true)|].
  exact (get_one_xattr_long_value demo "/file" "user.big" demo_value true
           g_file_info_new start eq_refl (demo_getxattr_stable true)).
Defined.

(** C8, as stated, fails: for a value of 70 bytes the length probed is 70,
    and the buffer requested is of 71 bytes, not of 70. *)
Lemma get_one_xattr_allocates_one_more :
  logged (get_one_xattr demo "/file" g_file_info_new "user.big" true start)
  = [Call (Sys_getxattr "/file" "user.big" 63) (failure ERANGE);
     Call (Sys_getxattr "/file" "user.big" 0) (success 70 None);
     Malloc 71;
     Call (Sys_getxattr "/file" "user.big" 70) (success 70 (Some demo_value))] /\
  ~ In (Malloc 70)
      (logged (get_one_xattr demo "/file" g_file_info_new "user.big" true start)).
Proof.
  assert (H : logged (get_one_xattr demo "/file" g_file_info_new "user.big" true start)
    = [Call (Sys_getxattr "/file" "user.big" 63) (failure ERANGE);
       Call (Sys_getxattr "/file" "user.big" 0) (success 70 None);
       Malloc 71;
       Call (Sys_getxattr "/file" "user.big" 70) (success 70 (Some demo_value))])
    by (vm_compute; reflexivity).
  split; [exact H|]. rewrite H. cbn [In].
  intros [H1|[H1|[H1|[H1|[]]]]]; discriminate H1.
Qed.

(** ** MetadataCollector: a failed resolution of the symlink target *)

(** A flag that shares no bit with the name and hidden flags takes the
    call off the fast path. *)
Lemma requested_beyond_name_and_hidden P requested flag :
  requests requested flag = true ->
  Z.land flag (Z.lor (G_FILE_INFO_NAME P) (G_FILE_INFO_IS_HIDDEN P)) = 0 ->
  only_name_and_hidden P requested = false.
Proof.
  unfold requests, only_name_and_hidden. intros Hreq Hdisjoint.
  destruct (Z.eqb_spec
              (Z.land requested
                 (Z.lnot (Z.lor (G_FILE_INFO_NAME P) (G_FILE_INFO_IS_HIDDEN P)))) 0)
    as [Hzero|]; [| reflexivity].
  assert (Hnone : Z.land requested flag = 0).
  { apply Z.bits_inj'. intros n Hn. rewrite Z.land_spec, Z.bits_0.
    apply (f_equal (fun z => Z.testbit z n)) in Hzero, Hdisjoint.
    rewrite Z.land_spec, Z.bits_0 in Hzero, Hdisjoint.
    rewrite Z.lnot_spec in Hzero by exact Hn.
    destruct (Z.testbit requested n), (Z.testbit flag n),
      (Z.testbit (Z.lor (G_FILE_INFO_NAME P) (G_FILE_INFO_IS_HIDDEN P)) n);
      try reflexivity; discriminate. }
  rewrite Hnone in Hreq. discriminate Hreq.
Qed.

(** C6: let the symlink target be requested, the stat call succeed and
    the resolution of the target fail.  Then no run of the entry point
    with at least as much fuel returns an error: what it returns is a bag
    without a symlink target, and no error.  And where the listing of the
    extended attributes settles, a run with enough fuel does return. *)
Theorem simple_get_symlink_failure (P : Platform) (fuel : nat)
    (basename : option string) (path : string) (requested : Z)
    (attribute_matcher : option GFileAttributeMatcher) (follow_symlinks : bool)
    (s s2 : state P) :
  requests requested (G_FILE_INFO_SYMLINK_TARGET P) = true ->
  Z.land (G_FILE_INFO_SYMLINK_TARGET P)
    (Z.lor (G_FILE_INFO_NAME P) (G_FILE_INFO_IS_HIDDEN P)) = 0 ->
  ret (answer s (stat_call follow_symlinks path)) <> -1 ->
  read_link P fuel path (after s (stat_call follow_symlinks path)) = Some (None, s2) ->
  (forall fuel' res s',
      (fuel <= fuel')%nat ->
      g_file_info_simple_get P fuel' basename path requested attribute_matcher
        follow_symlinks s = Some (res, s') ->
      exists info, res = (Some info, None) /\ info_symlink_target info = None) /\
  ((forall size w, settles P path follow_symlinks size w) ->
   exists fuel' info s',
     g_file_info_simple_get P fuel' basename path requested attribute_matcher
       follow_symlinks s = Some ((Some info, None), s') /\
     info_symlink_target info = None).
Proof.
  intros Hreq Hdisjoint Hstat Hlink.
  pose proof (requested_beyond_name_and_hidden P requested _ Hreq Hdisjoint) as Hslow.
  assert (Hrest : exists info2,
    (forall fuel', (fuel <= fuel')%nat ->
      g_file_info_simple_get P fuel' basename path requested attribute_matcher
        follow_symlinks s
      = mbind' (get_selinux_context P path info2 attribute_matcher follow_symlinks)
          (fun info =>
             mbind' (get_xattrs P fuel' path info attribute_matcher follow_symlinks)
               (fun info => mreturn (Some info, None))) s2) /\
    info_symlink_target info2 = None).
  { eexists. split.
    - intros fuel' Hle. unfold g_file_info_simple_get.
      fold (only_name_and_hidden P requested). rewrite Hslow. cbn [andb]. step.
      destruct (Z.eqb_spec (ret (answer s (stat_call follow_symlinks path))) (-1));
        [contradiction|].
      rewrite Hreq.
      rewrite (bind_run _ _ _ _ _
                 (bind_run _ _ _ _ _ (read_link_mono P _ _ _ _ _ Hlink Hle))).
      reflexivity.
    - reflexivity. }
  destruct Hrest as (info2 & Hrest & Hnone).
  destruct (get_selinux_context_total P path info2 attribute_matcher
              follow_symlinks s2) as (info3 & s3 & Hsel & Hsame3).
  split.
  - intros fuel' res s' Hle Hrun. rewrite (Hrest fuel' Hle) in Hrun.
    rewrite (bind_run _ _ _ _ _ Hsel) in Hrun.
    apply bind_inv in Hrun. destruct Hrun as (info4 & s4 & Hx & Hrun).
    injection Hrun as <- _. exists info4. split; [reflexivity|].
    apply get_xattrs_same in Hx. destruct Hx as (_ & _ & _ & ->).
    destruct Hsame3 as (_ & _ & _ & ->). exact Hnone.
  - intros Hsettles.
    destruct (get_xattrs_total P path info3 attribute_matcher follow_symlinks s3
                Hsettles) as (fuel0 & Hfuel0).
    destruct (Hfuel0 (Nat.max fuel fuel0) (Nat.le_max_r _ _)) as (info4 & s4 & Hx).
    exists (Nat.max fuel fuel0), info4, s4.
    rewrite (Hrest _ (Nat.le_max_l _ _)), (bind_run _ _ _ _ _ Hsel),
      (bind_run _ _ _ _ _ Hx).
    split; [reflexivity|].
    apply get_xattrs_same in Hx. destruct Hx as (_ & _ & _ & ->).
    destruct Hsame3 as (_ & _ & _ & ->). exact Hnone.
Qed.

Lemma sized_answer_erange value size :
  (ret (sized_answer value size) =? -1) && (errno (sized_answer value size) =? ERANGE)
  = negb (size =? 0) && (size <? Z.of_nat (String.length value)).
Proof.
  unfold sized_answer.
  destruct (size =? 0); cbn [ret errno negb andb].
  - destruct (Z.eqb_spec (Z.of_nat (String.length value)) (-1)); [lia | reflexivity].
  - destruct (size <? Z.of_nat (String.length value)); cbn [ret errno]; [reflexivity|].
    destruct (Z.eqb_spec (Z.of_nat (String.length value)) (-1)); [lia | reflexivity].
Qed.

Lemma demo_listing (follow : bool) size w :
  os demo (listx follow "/file" size) w = (sized_answer demo_names size, w).
Proof. destruct follow; reflexivity. Qed.

Lemma demo_listing_erange (follow : bool) size w :
  (ret (fst (os demo (listx follow "/file" size) w)) =? -1)
    && (errno (fst (os demo (listx follow "/file" size) w)) =? ERANGE)
  = negb (size =? 0) && (size <? 19).
Proof. rewrite demo_listing. cbn [fst]. apply sized_answer_erange. Qed.

Lemma demo_listing_settles_from (follow : bool) (n : nat) size w :
  0 <= size ->
  19 - size <= Z.of_nat n ->
  settles demo "/file" follow size w.
Proof.
  revert size. induction n as [|n IH]; intros size Hsize Hn;
    destruct (negb (size =? 0) && (size <? 19)) eqn:Hrange.
  - destruct (Z.ltb_spec size 19); [lia | now rewrite Bool.andb_false_r in Hrange].
  - apply settles_now. now rewrite demo_listing_erange.
  - apply settles_later; [now rewrite demo_listing_erange|].
    rewrite demo_listing. cbn [snd].
    destruct (Z.eqb_spec size 0); [discriminate Hrange|].
    destruct (Z.ltb_spec size 19); [| discriminate Hrange].
    unfold to_gsize. rewrite Z.mod_small by lia. apply IH; lia.
  - apply settles_now. now rewrite demo_listing_erange.
Qed.

Lemma demo_listing_settles (follow : bool) size w :
  settles demo "/file" follow size w.
Proof.
  destruct (Z.lt_ge_cases size 0) as [Hneg|Hpos].
  - apply settles_later.
    + rewrite demo_listing_erange.
      destruct (Z.eqb_spec size 0); [lia|].
      destruct (Z.ltb_spec size 19); [reflexivity | lia].
    + rewrite demo_listing. cbn [snd].
      assert (0 <= to_gsize (size * 2)) by (unfold to_gsize; apply Z.mod_pos_bound; lia).
      apply (demo_listing_settles_from follow 19); lia.
  - apply (demo_listing_settles_from follow 19); lia.
Qed.

Lemma simple_get_symlink_failure_witness :
  requests 1024 (G_FILE_INFO_SYMLINK_TARGET demo) = true /\
  Z.land (G_FILE_INFO_SYMLINK_TARGET demo)
    (Z.lor (G_FILE_INFO_NAME demo) (G_FILE_INFO_IS_HIDDEN demo)) = 0 /\
  ret (answer start (stat_call true "/file")) <> -1 /\
  read_link demo 1 "/file" (after start (stat_call true "/file"))
    = Some (None, demo_unresolved) /\
  (forall size w, settles demo "/file" true size w) /\
  exists fuel' info s',
    g_file_info_simple_get demo fuel' (Some "file") "/file" 1024
      (Some (demo_matcher "*")) true start = Some ((Some info, None), s') /\
    info_symlink_target info = None.
Proof.
  assert (Hstat : ret (answer start (stat_call true "/file")) <> -1)
    by (cbn; discriminate).
  split; [reflexivity|]. split; [reflexivity|]. split; [exact Hstat|].
  split; [reflexivity|]. split; [exact (demo_listing_settles true)|].
  exact (proj2
    (simple_get_symlink_failure demo 1 (Some "file") "/file" 1024
       (Some (demo_matcher "*")) true start demo_unresolved
       eq_refl eq_refl Hstat eq_refl)
    (demo_listing_settles true)).
Defined.

(** ** SecurityContextCollector: which variant is called *)

Lemma calls_of_app l1 l2 : calls_of (l1 ++ l2) = calls_of l1 ++ calls_of l2.
Proof.
  induction l1 as [|[c r|n|n] l1 IH]; cbn [calls_of app]; [reflexivity | | exact IH..].
  now rewrite IH.
Qed.

(** With SELinux compiled in and enabled and a matcher that asks for the
    context, [get_selinux_context] calls the variant that does NOT follow
    a final symlink exactly when it is told to follow symlinks. *)
Lemma get_selinux_context_variant P path info matcher (follow : bool) (s : state P) :
  HAVE_SELINUX P = true ->
  g_file_attribute_matcher_matches matcher "selinux" "selinux:context" = true ->
  ret (answer s Sys_is_selinux_enabled) <> 0 ->
  calls_of (logged (get_selinux_context P path info matcher follow s))
  = calls_of (log s)
      ++ [Sys_is_selinux_enabled;
          if follow then Sys_lgetfilecon_raw path else Sys_getfilecon_raw path].
Proof.
  intros Hhave Hmatch Henabled. unfold get_selinux_context.
  rewrite Hhave, Hmatch. cbn [negb]. step.
  destruct (Z.eqb_spec (ret (answer s Sys_is_selinux_enabled)) 0); [contradiction|].
  destruct follow; step;
    (destruct (ret _ <? 0); [| destruct (out _)]);
    cbn [logged mreturn log after]; rewrite <- List.app_assoc, calls_of_app; reflexivity.
Qed.

(** C5 fails on the code: asked to follow symlinks, the path-based entry
    point calls stat, which follows, and lgetfilecon_raw, which does not;
    asked not to follow, it calls lstat and getfilecon_raw, which
    follows. *)
Theorem selinux_context_inverts_follow_symlinks :
  calls_of (logged (g_file_info_simple_get demo 1 (Some "link") "/link" 0
                      (Some (demo_matcher "selinux:*")) true start))
  = [Sys_stat "/link"; Sys_is_selinux_enabled; Sys_lgetfilecon_raw "/link"] /\
  calls_of (logged (g_file_info_simple_get demo 1 (Some "link") "/link" 0
                      (Some (demo_matcher "selinux:*")) false start))
  = [Sys_lstat "/link"; Sys_is_selinux_enabled; Sys_getfilecon_raw "/link"].
Proof. split; vm_compute; reflexivity. Qed.

(** * Further properties of the code *)

(** ** ByteEscaper: the text that is stored *)

(** X1: [valid_char] accepts exactly the bytes 32..126 other than the
    backslash, and gives the same verdict on a platform where [char] is
    unsigned: the bytes from 128 on are rejected either way. *)
Theorem valid_char_any_char_type (v : ascii) :
  (valid_char (char_of v) = true <-> 32 <= byte_of v <= 126 /\ byte_of v <> 92) /\
  valid_char (byte_of v) = valid_char (char_of v) /\
  (128 <= byte_of v -> valid_char (char_of v) = false).
Proof.
  split; [| split].
  - rewrite valid_char_byte. unfold safe_byte.
    destruct (Z.leb_spec 32 (byte_of v)), (Z.leb_spec (byte_of v) 126),
      (Z.eqb_spec (byte_of v) 92); cbn; split; try discriminate; try lia; auto.
  - apply valid_char_unsigned.
  - intros H. rewrite valid_char_byte. unfold safe_byte.
    destruct (Z.leb_spec (byte_of v) 126); [lia|]. now rewrite Bool.andb_false_r.
Qed.

Lemma hex_of_printable n : 0 <= n < 16 -> printable (hex_of n).
Proof.
  intros Hn. rewrite <- (Z2Nat.id n) by lia.
  assert (Hk : (Z.to_nat n < 16)%nat) by lia.
  revert Hk. generalize (Z.to_nat n). clear Hn. intros k Hk. unfold printable.
  do 16 (destruct k as [|k]; [split; apply Z.leb_le; vm_compute; reflexivity|]). lia.
Qed.

Lemma safe_byte_printable v : safe_byte (byte_of v) = true -> printable v.
Proof.
  unfold safe_byte, printable.
  destruct (Z.leb_spec 32 (byte_of v)), (Z.leb_spec (byte_of v) 126);
    cbn [andb]; try discriminate. lia.
Qed.

Lemma encode_byte_printable v : every printable (encode_byte v).
Proof.
  unfold encode_byte. destruct (safe_byte (byte_of v)) eqn:Hsafe; cbn [every].
  - split; [now apply safe_byte_printable | exact I].
  - split; [split; apply Z.leb_le; vm_compute; reflexivity|].
    split; [split; apply Z.leb_le; vm_compute; reflexivity|].
    split; [apply hex_of_printable, low_nibble_range|].
    split; [apply hex_of_printable, low_nibble_range | exact I].
Qed.

Lemma encode_printable value : every printable (encode value).
Proof.
  induction value as [|v rest IH]; [exact I|].
  cbn [encode]. apply every_app; [apply encode_byte_printable | exact IH].
Qed.

(** X2: whatever the bytes of the value, the text that [escape_xattr]
    stores under the key of the attribute consists of printable ASCII
    (32..126) only; in particular it holds no NUL and no control byte. *)
Theorem escape_xattr_printable (P : Platform) (info : GFileInfo)
    (attr value : string) (s : state P) :
  exists info' s' text,
    escape_xattr P info attr value s = Some (info', s') /\
    info_attributes info' !! xattr_key attr = Some text /\
    every printable text.
Proof.
  destruct (escape_xattr_stores P info attr value s)
    as (info' & s' & Hrun & _ & _ & _ & _ & Hattr).
  exists info', s', (encode value). split; [exact Hrun|].
  split; [rewrite Hattr; apply lookup_insert_eq | apply encode_printable].
Qed.

Lemma string_length_append (s1 s2 : string) :
  String.length (s1 +:+ s2) = (String.length s1 + String.length s2)%nat.
Proof.
  induction s1 as [|a s1 IH]; [reflexivity|].
  rewrite string_app_cons. cbn [String.length]. now rewrite IH.
Qed.

Lemma count_invalid_acc value acc :
  count_invalid value acc = acc + count_invalid value 0.
Proof.
  revert acc. induction value as [|v rest IH]; intros acc; cbn [count_invalid]; [lia|].
  destruct (valid_char (char_of v)); [apply IH|].
  rewrite (IH (acc + 1)), (IH (0 + 1)). lia.
Qed.

Lemma length_encode value :
  Z.of_nat (String.length (encode value))
  = Z.of_nat (String.length value) + 3 * count_invalid value 0.
Proof.
  induction value as [|v rest IH]; [reflexivity|].
  cbn [encode count_invalid String.length]. rewrite string_length_append.
  rewrite valid_char_byte. unfold encode_byte.
  destruct (safe_byte (byte_of v)); cbn [String.length].
  - lia.
  - rewrite (count_invalid_acc rest (0 + 1)). lia.
Qed.

Lemma encode_fixed value :
  encode value = value <-> every (fun v => safe_byte (byte_of v) = true) value.
Proof.
  split; [| apply encode_safe].
  intros H. apply count_invalid_some.
  pose proof (length_encode value) as Hlen. rewrite H in Hlen.
  pose proof (count_invalid_ge value 0). lia.
Qed.

Lemma encode_app a b : encode (a +:+ b) = encode a +:+ encode b.
Proof.
  induction a as [|v a IH]; [reflexivity|].
  rewrite string_app_cons. cbn [encode]. now rewrite IH, string_app_assoc.
Qed.

(** What a run of [escape_xattr] is, in full. *)
Lemma escape_xattr_run P info attr value (s : state P) :
  escape_xattr P info attr value s
  = Some (g_file_info_set_attribute info (xattr_key attr) (encode value),
          if count_invalid value 0 =? 0 then s
          else {| world := world s;
                  log := log s
                    ++ [Malloc (Z.of_nat (String.length value)
                                + count_invalid value 0 * 3 + 1)] |}).
Proof.
  assert (Hk : c_str (xattr_key attr) = xattr_key attr).
  { rewrite <- full_attr_key. apply c_str_idem. }
  unfold escape_xattr. destruct (Z.eqb_spec (count_invalid value 0) 0) as [H0|Hn].
  - apply count_invalid_some in H0. rewrite (encode_safe _ H0).
    unfold mreturn, g_file_info_set_attribute. now rewrite full_attr_key, Hk.
  - step. unfold mreturn, g_file_info_set_attribute.
    now rewrite full_attr_key, Hk, escape_loop_encode, string_app_nil_l.
Qed.

Lemma stored_set_attribute info attr text :
  every (fun a => a <> NUL) text ->
  info_attributes (g_file_info_set_attribute info (xattr_key attr) text)
    !! xattr_key attr = Some text.
Proof.
  intros Hfree. unfold g_file_info_set_attribute. cbn [info_attributes].
  assert (Hk : c_str (xattr_key attr) = xattr_key attr).
  { rewrite <- full_attr_key. apply c_str_idem. }
  now rewrite Hk, (c_str_no_nul _ Hfree), lookup_insert_eq.
Qed.

(** X3: [escape_xattr] requests a buffer exactly when some byte of the
    value is unsafe, and the buffer it requests is of the length of the
    text it then stores plus one byte for the terminator: the copying loop
    fills the buffer to the last byte and writes nothing past it.  When
    every byte is safe the run leaves the state as it found it. *)
Theorem escape_xattr_buffer_fits (P : Platform) (info : GFileInfo)
    (attr value : string) (s : state P) :
  exists info' s' text,
    escape_xattr P info attr value s = Some (info', s') /\
    info_attributes info' !! xattr_key attr = Some text /\
    ((every (fun v => safe_byte (byte_of v) = true) value /\ s' = s) \/
     (~ every (fun v => safe_byte (byte_of v) = true) value /\
      world s' = world s /\
      log s' = log s ++ [Malloc (Z.of_nat (String.length text) + 1)])).
Proof.
  eexists _, _, (encode value). split; [apply escape_xattr_run|].
  split; [apply stored_set_attribute, encode_no_nul|].
  destruct (Z.eqb_spec (count_invalid value 0) 0) as [H0|Hn].
  - left. split; [now apply count_invalid_some | reflexivity].
  - right. split; [| split; [reflexivity|]].
    + intros Hsafe. apply Hn. now apply count_invalid_none.
    + cbn [log]. rewrite length_encode. do 3 f_equal. lia.
Qed.

(** X4: the text stored is three bytes longer than the value for every
    unsafe byte that the counting loop finds, and it is the value itself
    if and only if every byte of the value is safe. *)
Theorem escape_xattr_length (P : Platform) (info : GFileInfo)
    (attr value : string) (s : state P) :
  exists info' s' text,
    escape_xattr P info attr value s = Some (info', s') /\
    info_attributes info' !! xattr_key attr = Some text /\
    Z.of_nat (String.length text)
    = Z.of_nat (String.length value) + 3 * count_invalid value 0 /\
    0 <= count_invalid value 0 <= Z.of_nat (String.length value) /\
    (text = value <-> every (fun v => safe_byte (byte_of v) = true) value).
Proof.
  eexists _, _, (encode value). split; [apply escape_xattr_run|].
  split; [apply stored_set_attribute, encode_no_nul|].
  split; [apply length_encode|]. split; [| apply encode_fixed].
  split; [apply count_invalid_ge|].
  induction value as [|v rest IH]; [cbn; lia|].
  cbn [count_invalid String.length]. destruct (valid_char (char_of v)); [lia|].
  rewrite (count_invalid_acc rest (0 + 1)). lia.
Qed.

(** X5: escaping works byte by byte, without context: the text stored
    for two values one after the other is the text stored for the first
    followed by the text stored for the second. *)
Theorem escape_xattr_append (P : Platform) (info : GFileInfo)
    (attr value1 value2 : string) (s : state P) :
  exists text1 text2,
    stored (xattr_key attr) (escape_xattr P info attr value1 s) = Some text1 /\
    stored (xattr_key attr) (escape_xattr P info attr value2 s) = Some text2 /\
    stored (xattr_key attr) (escape_xattr P info attr (value1 +:+ value2) s)
    = Some (text1 +:+ text2).
Proof.
  exists (encode value1), (encode value2). rewrite !escape_xattr_run.
  unfold stored. rewrite !stored_set_attribute by apply encode_no_nul.
  now rewrite encode_app.
Qed.

(** ** Frames *)

Lemma xattr_key_fixed attr : c_str (xattr_key attr) = xattr_key attr.
Proof. rewrite <- full_attr_key. apply c_str_idem. Qed.

Lemma frame_key_refl key info : frame_key key info info.
Proof. split; [apply same_standard_refl | reflexivity]. Qed.

Lemma frame_key_set info attr text :
  frame_key (xattr_key attr) info
    (g_file_info_set_attribute info (xattr_key attr) text).
Proof.
  split; [apply set_attribute_same|]. intros k Hk.
  unfold g_file_info_set_attribute. cbn [info_attributes].
  rewrite xattr_key_fixed. now apply lookup_insert_ne.
Qed.

Lemma frame_xattrs_refl info : frame_xattrs info info.
Proof. split; [apply same_standard_refl | reflexivity]. Qed.

Lemma frame_xattrs_trans i1 i2 i3 :
  frame_xattrs i1 i2 -> frame_xattrs i2 i3 -> frame_xattrs i1 i3.
Proof.
  intros [S12 K12] [S23 K23]. split; [eapply same_standard_trans; eassumption|].
  intros k Hk. now rewrite K23, K12.
Qed.

Lemma frame_key_xattrs attr i1 i2 :
  frame_key (xattr_key attr) i1 i2 -> frame_xattrs i1 i2.
Proof. intros [S K]. split; [exact S|]. intros k Hk. apply K, Hk. Qed.

(** ** Logs *)

Lemma keeps_ret {P A} (Q : os_call -> Prop) (R : A -> Prop) (a : A) :
  R a -> keeps (P := P) Q R (mreturn a).
Proof.
  intros Ha s b s' [= <- <-]. split; [exact Ha|].
  exists []. split; [now rewrite List.app_nil_r | constructor].
Qed.

Lemma keeps_bind {P A B} (Q : os_call -> Prop) (R1 : A -> Prop) (R2 : B -> Prop)
    (m : M P A) (k : A -> M P B) :
  keeps Q R1 m ->
  (forall a, R1 a -> keeps Q R2 (k a)) ->
  keeps Q R2 (mbind' m k).
Proof.
  intros Hm Hk s b s' Hrun. apply bind_inv in Hrun.
  destruct Hrun as (a & s1 & Hfirst & Hrest).
  destruct (Hm _ _ _ Hfirst) as (Ha & l1 & Hlog1 & Hcalls1).
  destruct (Hk a Ha _ _ _ Hrest) as (Hb & l2 & Hlog2 & Hcalls2).
  split; [exact Hb|]. exists (l1 ++ l2).
  split; [now rewrite Hlog2, Hlog1, List.app_assoc|].
  rewrite calls_of_app. apply Forall_app. now split.
Qed.

Lemma keeps_sys P (Q : os_call -> Prop) c :
  Q c -> keeps Q (fun _ => True) (sys P c).
Proof.
  intros Hc s r s'. rewrite sys_run. intros [= <- <-]. split; [exact I|].
  eexists. split; [reflexivity|]. cbn [calls_of]. now constructor.
Qed.

Lemma keeps_malloc P (Q : os_call -> Prop) n : keeps Q (fun _ => True) (g_malloc P n).
Proof.
  intros s r s'. rewrite malloc_run. intros [= <- <-]. split; [exact I|].
  eexists. split; [reflexivity | constructor].
Qed.

Lemma keeps_realloc P (Q : os_call -> Prop) n : keeps Q (fun _ => True) (g_realloc P n).
Proof.
  intros s r s'. rewrite realloc_run. intros [= <- <-]. split; [exact I|].
  eexists. split; [reflexivity | constructor].
Qed.

Lemma keeps_weaken {P A} (Q Q' : os_call -> Prop) (R R' : A -> Prop) (m : M P A) :
  (forall c, Q c -> Q' c) ->
  (forall a, R a -> R' a) ->
  keeps Q R m -> keeps Q' R' m.
Proof.
  intros HQ HR Hm s a s' Hrun. destruct (Hm _ _ _ Hrun) as (Ha & l & Hlog & Hcalls).
  split; [auto|]. exists l. split; [exact Hlog|].
  eapply List.Forall_impl; [exact HQ | exact Hcalls].
Qed.

Lemma getx_sys P (follow : bool) path attr size :
  (if follow then sys P (Sys_getxattr path attr size)
   else sys P (Sys_lgetxattr path attr size))
  = sys P (getx follow path attr size).
Proof. now destruct follow. Qed.

Lemma listx_sys P (follow : bool) path size :
  (if follow then sys P (Sys_listxattr path size)
   else sys P (Sys_llistxattr path size))
  = sys P (listx follow path size).
Proof. now destruct follow. Qed.

Lemma stat_sys P (follow : bool) path :
  (if follow then sys P (Sys_stat path) else sys P (Sys_lstat path))
  = sys P (stat_call follow path).
Proof. now destruct follow. Qed.

(** ** ExtendedAttributeCollector: one attribute, whatever the answers *)

(** The log of a finished run, as an extension of the log it started
    with. *)
Ltac log_shape :=
  cbn [log after world]; rewrite <- ?List.app_assoc; reflexivity.

Lemma escape_xattr_outcome P info attr value (s : state P) :
  exists s' l,
    escape_xattr P info attr value s
    = Some (g_file_info_set_attribute info (xattr_key attr) (encode value), s') /\
    log s' = log s ++ l /\ calls_of l = [].
Proof.
  rewrite escape_xattr_run. destruct (count_invalid value 0 =? 0).
  - exists s, []. now rewrite List.app_nil_r.
  - eexists _, _. split; [reflexivity|]. split; reflexivity.
Qed.

(** The exits of [get_one_xattr], one by one. *)
Lemma get_one_xattr_cases (P : Platform) (path : string) (info : GFileInfo)
    (attr : string) (follow_symlinks : bool) (s : state P) :
  exists info' s' l,
    get_one_xattr P path info attr follow_symlinks s = Some (info', s') /\
    (info' = info \/
     exists value,
       info' = g_file_info_set_attribute info (xattr_key attr) (encode value)) /\
    frame_key (xattr_key attr) info info' /\
    log s' = log s ++ l /\
    Forall (fun c => exists size, c = getx follow_symlinks path attr size)
      (calls_of l) /\
    (1 <= length (calls_of l) <= 3)%nat.
Proof.
  unfold get_one_xattr. rewrite !getx_sys. rewrite (bind_run _ _ _ _ _ (sys_run _ _ _)).
  destruct (ret (answer s (getx follow_symlinks path attr (64 - 1))) >=? 0).
  { destruct (escape_xattr_outcome P info attr
                (buffer (answer s (getx follow_symlinks path attr (64 - 1)))
                   (ret (answer s (getx follow_symlinks path attr (64 - 1)))))
                (after s (getx follow_symlinks path attr (64 - 1))))
      as (s' & l & Hrun & Hlog & Hcalls).
    eexists _, s', _. split; [exact Hrun|]. split; [right; eauto|].
    split; [apply frame_key_set|]. split; [rewrite Hlog; log_shape|].
    cbn [calls_of app]. rewrite Hcalls. split; [| cbn; lia].
    repeat constructor. eauto. }
  match goal with |- context [if ?c then _ else _] => destruct c end.
  2:{ eexists _, _, _. split; [reflexivity|]. split; [now left|].
      split; [apply frame_key_refl|]. split; [log_shape|].
      cbn [calls_of app]. split; [| cbn; lia]. repeat constructor. eauto. }
  rewrite (bind_run _ _ _ _ _ (sys_run _ _ _)).
  match goal with |- context [if ?c then _ else _] => destruct c end.
  { eexists _, _, _. split; [reflexivity|]. split; [now left|].
    split; [apply frame_key_refl|]. split; [log_shape|].
    cbn [calls_of app]. split; [| cbn; lia]. repeat constructor; eauto. }
  step. rewrite ?getx_sys. step.
  match goal with |- context [if ?c then _ else _] => destruct c end.
  { eexists _, _, _. split; [reflexivity|]. split; [now left|].
    split; [apply frame_key_refl|]. split; [log_shape|].
    cbn [calls_of app]. split; [| cbn; lia]. repeat constructor; eauto. }
  match goal with
  | |- context [escape_xattr P info attr ?v ?s1] =>
      destruct (escape_xattr_outcome P info attr v s1)
        as (s' & l & Hrun & Hlog & Hcalls)
  end.
  eexists _, s', _. split; [exact Hrun|]. split; [right; eauto|].
  split; [apply frame_key_set|]. split; [rewrite Hlog; log_shape|].
  cbn [calls_of app]. rewrite Hcalls. split; [| cbn; lia].
  repeat constructor; eauto.
Qed.


(** ** ExtendedAttributeCollector: one attribute that does not change *)

Lemma sized_answer_fits value size :
  size <> 0 ->
  Z.of_nat (String.length value) <= size ->
  sized_answer value size
  = {| ret := Z.of_nat (String.length value); errno := 0; out := Some value |}.
Proof.
  intros Hnz Hfit. unfold sized_answer.
  destruct (Z.eqb_spec size 0); [contradiction|].
  destruct (Z.ltb_spec size (Z.of_nat (String.length value))); [lia | reflexivity].
Qed.

Lemma buffer_value value :
  buffer {| ret := Z.of_nat (String.length value); errno := 0; out := Some value |}
    (Z.of_nat (String.length value)) = value.
Proof.
  unfold buffer. cbn [out].
  change (default EmptyString (Some value)) with value.
  rewrite Nat2Z.id. now apply substring_all.
Qed.

(** The run of [get_one_xattr] on a value that does not change. *)
Lemma get_one_xattr_stable (P : Platform) (path attr value : string)
    (follow_symlinks : bool) (info : GFileInfo) (s : state P) :
  (forall size w,
      fst (os P (getx follow_symlinks path attr size) w) = sized_answer value size) ->
  exists s' l,
    get_one_xattr P path info attr follow_symlinks s
    = Some (g_file_info_set_attribute info (xattr_key attr) (encode value), s') /\
    log s' = log s ++ l /\
    calls_of l
    = if Z.of_nat (String.length value) <=? 63
      then [getx follow_symlinks path attr 63]
      else [getx follow_symlinks path attr 63;
            getx follow_symlinks path attr 0;
            getx follow_symlinks path attr (Z.of_nat (String.length value))].
Proof.
  intros Hstable.
  assert (Hans : forall (t : state P) size,
             answer t (getx follow_symlinks path attr size) = sized_answer value size).
  { intros t size. apply Hstable. }
  unfold get_one_xattr. change (64 - 1) with 63. rewrite !getx_sys.
  step. rewrite !Hans.
  destruct (Z.leb_spec (Z.of_nat (String.length value)) 63) as [Hshort|Hlong].
  - rewrite sized_answer_fits by lia. cbn [ret].
    destruct (Z.geb_spec (Z.of_nat (String.length value)) 0); [| lia].
    rewrite buffer_value.
    match goal with
    | |- context [escape_xattr P info attr value ?s1] =>
        destruct (escape_xattr_outcome P info attr value s1)
          as (s' & l & Hrun & Hlog & Hcalls)
    end.
    eexists s', _. split; [exact Hrun|]. split; [rewrite Hlog; log_shape|].
    cbn [calls_of app]. now rewrite Hcalls.
  - rewrite sized_answer_small by lia. cbn [ret errno].
    change (-1 >=? 0) with false.
    change ((-1 =? -1) && (ERANGE =? ERANGE)) with true. cbv iota.
    step. rewrite !Hans, sized_answer_probe. cbn [ret].
    destruct (Z.ltb_spec (Z.of_nat (String.length value)) 0); [lia|].
    step. rewrite ?getx_sys. step. rewrite !Hans, sized_answer_exact by lia.
    cbn [ret]. destruct (Z.ltb_spec (Z.of_nat (String.length value)) 0); [lia|].
    rewrite buffer_value.
    match goal with
    | |- context [escape_xattr P info attr value ?s1] =>
        destruct (escape_xattr_outcome P info attr value s1)
          as (s' & l & Hrun & Hlog & Hcalls)
    end.
    eexists s', _. split; [exact Hrun|]. split; [rewrite Hlog; log_shape|].
    cbn [calls_of app]. now rewrite Hcalls.
Qed.

(** X7: an attribute whose value does not change while it is read is
    fetched whole, whatever its length, and its escaped form is stored
    under the key of the attribute.  A value of up to 63 bytes costs one
    call; a longer one costs three: with 63 bytes, with none, and with the
    length that the second call has returned. *)
Theorem get_one_xattr_fetches (P : Platform) (path attr value : string)
    (follow_symlinks : bool) (info : GFileInfo) (s : state P) :
  (forall size w,
      fst (os P (getx follow_symlinks path attr size) w) = sized_answer value size) ->
  exists s' l,
    get_one_xattr P path info attr follow_symlinks s
    = Some (g_file_info_set_attribute info (xattr_key attr) (encode value), s') /\
    log s' = log s ++ l /\
    calls_of l
    = if Z.of_nat (String.length value) <=? 63
      then [getx follow_symlinks path attr 63]
      else [getx follow_symlinks path attr 63;
            getx follow_symlinks path attr 0;
            getx follow_symlinks path attr (Z.of_nat (String.length value))].
Proof.
  intros Hstable.
  destruct (get_one_xattr_stable P path attr value follow_symlinks info s Hstable)
    as (s' & l & Hrun & Hlog & Hcalls).
  exists s', l. split; [exact Hrun|]. split; [exact Hlog | exact Hcalls].
Qed.

Lemma demo_note_stable (follow : bool) size w :
  fst (os demo (getx follow "/file" "user.note" size) w) = sized_answer "plain" size.
Proof. destruct follow; reflexivity. Qed.

Lemma get_one_xattr_fetches_witness :
  (forall size w,
      fst (os demo (getx false "/file" "user.note" size) w)
      = sized_answer "plain" size) /\
  exists s' l,
    get_one_xattr demo "/file" g_file_info_new "user.note" false start
    = Some (g_file_info_set_attribute g_file_info_new (xattr_key "user.note")
              (encode "plain"), s') /\
    log s' = log start ++ l /\
    calls_of l = [getx false "/file" "user.note" 63].
Proof.
  split; [exact (demo_note_stable false)|].
  exact (get_one_xattr_fetches demo "/file" "user.note" "plain" false
           g_file_info_new start (demo_note_stable false)).
Defined.

(** X8: an attribute that cannot be read is skipped.  When every
    getxattr call on it fails, [get_one_xattr] returns the bag it was
    given, having stored nothing, after one call, or after two when the
    first failure was ERANGE. *)
Theorem get_one_xattr_unreadable (P : Platform) (path attr : string)
    (follow_symlinks : bool) (info : GFileInfo) (s : state P) :
  (forall size w, ret (fst (os P (getx follow_symlinks path attr size) w)) < 0) ->
  exists s' l,
    get_one_xattr P path info attr follow_symlinks s = Some (info, s') /\
    log s' = log s ++ l /\
    Forall (fun e => exists c r, e = Call c r) l /\
    (calls_of l = [getx follow_symlinks path attr 63] \/
     (ret (answer s (getx follow_symlinks path attr 63)) = -1 /\
      errno (answer s (getx follow_symlinks path attr 63)) = ERANGE /\
      calls_of l = [getx follow_symlinks path attr 63;
                    getx follow_symlinks path attr 0])).
Proof.
  intros Hfail.
  assert (Hans : forall (t : state P) size,
             ret (answer t (getx follow_symlinks path attr size)) < 0).
  { intros t size. apply Hfail. }
  unfold get_one_xattr. change (64 - 1) with 63. rewrite !getx_sys. step.
  destruct (Z.geb_spec (ret (answer s (getx follow_symlinks path attr 63))) 0)
    as [Hge|_]; [specialize (Hans s 63); lia|].
  destruct (Z.eqb_spec (ret (answer s (getx follow_symlinks path attr 63))) (-1))
    as [Hm1|Hother]; cbn [andb];
    [destruct (Z.eqb_spec (errno (answer s (getx follow_symlinks path attr 63))) ERANGE)
       as [Hrange|Hother] |].
  - step.
    destruct (Z.ltb_spec
                (ret (answer (after s (getx follow_symlinks path attr 63))
                        (getx follow_symlinks path attr 0))) 0) as [_|Hge];
      [| specialize (Hans (after s (getx follow_symlinks path attr 63)) 0); lia].
    eexists _, _. split; [reflexivity|]. split; [log_shape|].
    split; [repeat constructor; eauto | right; auto].
  - eexists _, _. split; [reflexivity|]. split; [log_shape|].
    split; [repeat constructor; eauto | now left].
  - eexists _, _. split; [reflexivity|]. split; [log_shape|].
    split; [repeat constructor; eauto | now left].
Qed.

Lemma demo_absent_fails (follow : bool) size w :
  ret (fst (os demo (getx follow "/file" "user.absent" size) w)) < 0.
Proof. destruct follow; cbn; lia. Qed.

Lemma get_one_xattr_unreadable_witness :
  (forall size w, ret (fst (os demo (getx true "/file" "user.absent" size) w)) < 0) /\
  exists s' l,
    get_one_xattr demo "/file" g_file_info_new "user.absent" true start
    = Some (g_file_info_new, s') /\
    log s' = log start ++ l.
Proof.
  split; [exact (demo_absent_fails true)|].
  destruct (get_one_xattr_unreadable demo "/file" "user.absent" true
              g_file_info_new start (demo_absent_fails true))
    as (s' & l & Hrun & Hlog & _).
  exists s', l. split; [exact Hrun | exact Hlog].
Defined.

(** ** ExtendedAttributeCollector: the keys that the request names *)





Lemma get_xattrs_without_matcher P fuel path info (follow : bool) (s : state P) :
  get_xattrs P fuel path info None follow s = Some (info, s).
Proof. reflexivity. Qed.



(** ** ExtendedAttributeCollector: the walk over the list of names *)












(** ** ExtendedAttributeCollector: the listing when the list changes *)

(** The size of the buffer after [k] doublings. *)
Lemma doubled_succ k size :
  Nat.iter k (fun z => to_gsize (z * 2)) (to_gsize (size * 2))
  = Nat.iter (S k) (fun z => to_gsize (z * 2)) size.
Proof. exact (Nat.iter_swap k Z (fun z => to_gsize (z * 2)) size). Qed.

(** X11: the retry of the listing.  When [list_retry] returns, the
    answer it returns is not ERANGE; it has called listxattr (or
    llistxattr, as the flag says) on the path once or more, less often
    than it has fuel, the first time with the size it was given and each
    further time with twice the size of the time before, as a [gsize]. *)
Theorem list_retry_doubles (P : Platform) (fuel : nat) (path : string)
    (list_size : Z) (follow_symlinks : bool) (s : state P) (r : os_ret)
    (s' : state P) :
  list_retry P fuel path list_size follow_symlinks s = Some (r, s') ->
  (ret r =? -1) && (errno r =? ERANGE) = false /\
  exists k l,
    (k < fuel)%nat /\
    log s' = log s ++ l /\
    calls_of l
    = map (fun i => listx follow_symlinks path
                      (Nat.iter i (fun z => to_gsize (z * 2)) list_size))
        (seq 0 (S k)).
Proof.
  revert list_size s. induction fuel as [|fuel IH]; intros list_size s; [discriminate|].
  cbn [list_retry]. rewrite listx_sys. step.
  destruct ((ret (answer s (listx follow_symlinks path list_size)) =? -1)
            && (errno (answer s (listx follow_symlinks path list_size)) =? ERANGE))
    eqn:Hrange.
  - step. intros Hrun. apply IH in Hrun.
    destruct Hrun as (Hr & k & l & Hk & Hlog & Hcalls). split; [exact Hr|].
    exists (S k). eexists. split; [lia|]. split; [rewrite Hlog; log_shape|].
    cbn [calls_of app]. rewrite Hcalls.
    change (seq 0 (S (S k))) with (0%nat :: seq 1 (S k)).
    cbn [map Nat.iter]. f_equal.
    rewrite <- (List.seq_shift (S k) 0), List.map_map.
    apply List.map_ext. intros i. now rewrite doubled_succ.
  - intros [= <- <-]. split; [exact Hrange|].
    exists 0%nat. eexists. split; [lia|]. split; [log_shape | reflexivity].
Qed.

Lemma list_retry_doubles_witness :
  list_retry demo 2 "/file" 10 true start
  = Some (sized_answer demo_names 20,
          Build_state demo tt
            [Call (Sys_listxattr "/file" 10) (failure ERANGE);
             Realloc 20;
             Call (Sys_listxattr "/file" 20) (sized_answer demo_names 20)]) /\
  exists k l,
    (k < 2)%nat /\
    l = [Call (Sys_listxattr "/file" 10) (failure ERANGE);
         Realloc 20;
         Call (Sys_listxattr "/file" 20) (sized_answer demo_names 20)] /\
    calls_of l
    = map (fun i => listx true "/file" (Nat.iter i (fun z => to_gsize (z * 2)) 10))
        (seq 0 (S k)).
Proof.
  split; [reflexivity|].
  destruct (list_retry_doubles demo 2 "/file" 10 true start
              (sized_answer demo_names 20)
              (Build_state demo tt
                 [Call (Sys_listxattr "/file" 10) (failure ERANGE);
                  Realloc 20;
                  Call (Sys_listxattr "/file" 20) (sized_answer demo_names 20)])
              eq_refl) as (_ & k & l & Hk & Hlog & Hcalls).
  exists k, l. split; [exact Hk|]. split; [exact (eq_sym Hlog) | exact Hcalls].
Defined.

(** ** ExtendedAttributeCollector: whatever the answers *)

Lemma get_one_xattr_keeps P path info attr (follow : bool) :
  keeps (fun c => exists a size, c = getx follow path a size)
    (frame_xattrs info) (get_one_xattr P path info attr follow).
Proof.
  intros s info' s' Hrun.
  destruct (get_one_xattr_cases P path info attr follow s)
    as (i & t & l & Hrun' & _ & Hframe & Hlog & Hcalls & _).
  rewrite Hrun' in Hrun. injection Hrun as <- <-.
  split; [eapply frame_key_xattrs; exact Hframe|].
  exists l. split; [exact Hlog|].
  eapply List.Forall_impl; [| exact Hcalls]. intros c (size & ->). eauto.
Qed.

Lemma frame_xattrs_keeps {P} (Q : os_call -> Prop) info info1 (m : M P GFileInfo) :
  frame_xattrs info info1 ->
  keeps Q (frame_xattrs info1) m ->
  keeps Q (frame_xattrs info) m.
Proof.
  intros H01 Hm. eapply keeps_weaken; [| | exact Hm]; [auto|].
  intros i H1. eapply frame_xattrs_trans; eassumption.
Qed.

Lemma walk_names_keeps P n path info attr list_res_size (follow : bool) :
  keeps (fun c => exists a size, c = getx follow path a size)
    (frame_xattrs info) (walk_names P n path info attr list_res_size follow).
Proof.
  revert info attr list_res_size.
  induction n as [|n IH]; intros info attr list_res_size; cbn [walk_names].
  - apply keeps_ret, frame_xattrs_refl.
  - destruct (list_res_size >? 0); [| apply keeps_ret, frame_xattrs_refl].
    eapply keeps_bind; [apply get_one_xattr_keeps|].
    intros info1 H1. eapply frame_xattrs_keeps; [exact H1 | apply IH].
Qed.

Lemma each_key_keeps P keys path info (follow : bool) :
  keeps (fun c => exists a size, c = getx follow path a size)
    (frame_xattrs info) (each_key P keys path info follow).
Proof.
  revert info. induction keys as [|attr keys IH]; intros info; cbn [each_key].
  - apply keeps_ret, frame_xattrs_refl.
  - eapply keeps_bind; [apply get_one_xattr_keeps|].
    intros info1 H1. eapply frame_xattrs_keeps; [exact H1 | apply IH].
Qed.

Lemma list_retry_keeps P fuel path list_size (follow : bool) :
  keeps (fun c => exists size, c = listx follow path size) (fun _ => True)
    (list_retry P fuel path list_size follow).
Proof.
  revert list_size. induction fuel as [|fuel IH]; intros list_size;
    [intros s a s'; discriminate|].
  cbn [list_retry]. rewrite listx_sys.
  eapply keeps_bind; [apply keeps_sys; eauto|]. intros r _.
  destruct (_ && _); [| now apply keeps_ret].
  eapply keeps_bind; [apply keeps_realloc|]. intros _ _. apply IH.
Qed.

Lemma get_xattrs_keeps P fuel path info matcher (follow : bool) :
  keeps (fun c => (exists a size, c = getx follow path a size) \/
                  (exists size, c = listx follow path size))
    (frame_xattrs info) (get_xattrs P fuel path info matcher follow).
Proof.
  unfold get_xattrs.
  destruct (g_file_attribute_matcher_enumerate matcher "xattr").
  - rewrite listx_sys.
    eapply keeps_bind; [apply keeps_sys; right; eauto|]. intros r _.
    destruct (_ || _); [apply keeps_ret, frame_xattrs_refl|].
    eapply keeps_bind; [apply keeps_malloc|]. intros _ _.
    eapply (keeps_bind _ (fun _ => True));
      [eapply keeps_weaken; [| | apply list_retry_keeps]; [intros c Hc; right; exact Hc | auto]|].
    intros r1 _. cbv beta.
    destruct (ret r1 =? -1); [apply keeps_ret, frame_xattrs_refl|].
    eapply keeps_weaken; [| | apply walk_names_keeps]; [intros c Hc; left; exact Hc | auto].
  - eapply keeps_weaken; [| | apply each_key_keeps]; [intros c Hc; left; exact Hc | auto].
Qed.

Lemma label_key_is_no_xattr_key attr : "selinux:context" <> xattr_key attr.
Proof. unfold xattr_key. rewrite !string_app_cons. discriminate. Qed.



(** ** SecurityContextCollector *)

Lemma frame_key_label info context :
  frame_key "selinux:context" info
    (g_file_info_set_attribute info "selinux:context" context).
Proof.
  split; [apply set_attribute_same|]. intros k Hk.
  unfold g_file_info_set_attribute. cbn [info_attributes].
  change (c_str "selinux:context") with "selinux:context".
  now apply lookup_insert_ne.
Qed.

(** The exits of [get_selinux_context], one by one. *)
Lemma get_selinux_context_cases (P : Platform) (path : string)
    (info : GFileInfo) (attribute_matcher : option GFileAttributeMatcher)
    (follow_symlinks : bool) (s : state P) :
  exists info' s' l,
    get_selinux_context P path info attribute_matcher follow_symlinks s
    = Some (info', s') /\
    log s' = log s ++ l /\
    Forall (fun e => exists c r, e = Call c r /\ label_call path c) l /\
    (length l <= 2)%nat /\
    frame_key "selinux:context" info info' /\
    (info' = info \/
     exists context,
       info' = g_file_info_set_attribute info "selinux:context" context) /\
    (HAVE_SELINUX P = false \/
     g_file_attribute_matcher_matches attribute_matcher "selinux" "selinux:context"
     = false ->
     info' = info /\ s' = s) /\
    (ret (answer s Sys_is_selinux_enabled) = 0 ->
     info' = info /\ (length l <= 1)%nat) /\
    (ret (answer (after s Sys_is_selinux_enabled)
            (if follow_symlinks then Sys_lgetfilecon_raw path
             else Sys_getfilecon_raw path)) < 0 ->
     info' = info).
Proof.
  unfold get_selinux_context, label_call.
  destruct (HAVE_SELINUX P) eqn:Hhave.
  2:{ exists info, s, []. rewrite List.app_nil_r. cbn [length].
      repeat (split; [first [reflexivity | constructor | apply frame_key_refl
                             | now left | auto | lia]|]); auto. }
  destruct (g_file_attribute_matcher_matches attribute_matcher "selinux"
              "selinux:context") eqn:Hmatch; cbn [negb].
  2:{ exists info, s, []. rewrite List.app_nil_r. cbn [length].
      repeat (split; [first [reflexivity | constructor | apply frame_key_refl
                             | now left | auto | lia]|]); auto. }
  step. destruct (Z.eqb_spec (ret (answer s Sys_is_selinux_enabled)) 0) as [Hoff|Hon].
  { eexists _, _, _. split; [reflexivity|]. split; [log_shape|]. cbn [length].
    split; [repeat constructor; eauto|]. split; [lia|].
    split; [apply frame_key_refl|]. split; [now left|].
    split; [intros [H|H]; discriminate H|]. split; [split; [reflexivity | lia] | auto]. }
  destruct follow_symlinks; step;
    match goal with |- context [if ret ?r <? 0 then _ else _] =>
      destruct (Z.ltb_spec (ret r) 0) as [Hneg|Hpos]; [| destruct (out r) as [context|]]
    end;
    eexists _, _, _; (split; [reflexivity|]); (split; [log_shape|]); cbn [length app];
    (split; [repeat constructor; eauto 6|]); (split; [lia|]);
    (split; [first [apply frame_key_refl | apply frame_key_label]|]);
    (split; [first [now left | right; eauto]|]);
    (split; [intros [H|H]; discriminate H|]);
    (split; [intros H; contradiction|]);
    first [reflexivity | intros H; lia | auto].
Qed.

(** X13: whatever the operating system answers, [get_selinux_context]
    returns.  It requests no buffer and makes at most two calls:
    is_selinux_enabled, then one of getfilecon_raw and lgetfilecon_raw on
    the path.  It either leaves the bag exactly as it was or stores a
    context under [selinux:context], and changes nothing else.  Built
    without SELinux, or with a matcher that does not match the label, it
    makes no call at all; when is_selinux_enabled answers 0 it makes this
    one call; and when the retrieval returns a negative value the bag is
    left as it was. *)
Theorem get_selinux_context_outcome (P : Platform) (path : string)
    (info : GFileInfo) (attribute_matcher : option GFileAttributeMatcher)
    (follow_symlinks : bool) (s : state P) :
  exists info' s' l,
    get_selinux_context P path info attribute_matcher follow_symlinks s
    = Some (info', s') /\
    log s' = log s ++ l /\
    Forall (fun e => exists c r, e = Call c r /\ label_call path c) l /\
    (length l <= 2)%nat /\
    frame_key "selinux:context" info info' /\
    (info' = info \/
     exists context,
       info' = g_file_info_set_attribute info "selinux:context" context) /\
    (HAVE_SELINUX P = false \/
     g_file_attribute_matcher_matches attribute_matcher "selinux" "selinux:context"
     = false ->
     info' = info /\ s' = s) /\
    (ret (answer s Sys_is_selinux_enabled) = 0 ->
     info' = info /\ (length l <= 1)%nat) /\
    (ret (answer (after s Sys_is_selinux_enabled)
            (if follow_symlinks then Sys_lgetfilecon_raw path
             else Sys_getfilecon_raw path)) < 0 ->
     info' = info).
Proof.
  destruct (get_selinux_context_cases P path info attribute_matcher follow_symlinks s)
    as (info' & s' & l & Hrun & Hrest).
  exists info', s', l. split; [exact Hrun | exact Hrest].
Qed.

(** ** SymlinkResolver: bounds *)

Lemma within_weaken full_name limit limit' e :
  limit <= limit' -> within full_name limit e -> within full_name limit' e.
Proof.
  intros Hle. destruct e as [c r|n|n]; cbn [within]; [| lia..].
  intros (size & -> & Hsize). exists size. split; [reflexivity | lia].
Qed.

Lemma to_int_top : to_int (2 ^ 31) < 0.
Proof. vm_compute. reflexivity. Qed.

Section ReadLinkBounds.

Variable P : Platform.
Variable full_name : string.

(** readlink never returns more than the size of the buffer, nor less
    than an [int] can hold. *)
Hypothesis respects_bufsiz :
  forall size w,
    0 < size ->
    - 2 ^ 31 <= ret (fst (os P (Sys_readlink full_name size) w)) <= size.

Lemma read_link_loop_bounded m size (s : state P) :
  0 < size ->
  size * 2 ^ Z.of_nat m = 2 ^ 31 ->
  exists res s' l,
    read_link_loop P (S m) full_name size s = Some (res, s') /\
    log s' = log s ++ l /\
    (1 <= length (calls_of l) <= S m)%nat /\
    Forall (within full_name (2 ^ 31)) l.
Proof.
  revert size s. induction m as [|m IH]; intros size s Hsize Hm;
    cbn [read_link_loop]; step;
    pose proof (respects_bufsiz size (world s) Hsize) as Hret;
    fold (answer s (Sys_readlink full_name size)) in Hret.
  - change (2 ^ Z.of_nat 0) with 1 in Hm.
    destruct (Z.eq_dec (ret (answer s (Sys_readlink full_name size))) (2 ^ 31))
      as [Htop|Hless].
    + rewrite Htop. destruct (Z.ltb_spec (to_int (2 ^ 31)) 0) as [_|H];
        [| pose proof to_int_top; lia].
      eexists _, _, _. split; [reflexivity|]. split; [log_shape|].
      cbn [calls_of length app]. split; [lia|].
      repeat constructor. exists size. split; [reflexivity | lia].
    + rewrite to_int_id by lia.
      destruct (Z.ltb_spec (ret (answer s (Sys_readlink full_name size))) 0);
        [| destruct (Z.ltb_spec (ret (answer s (Sys_readlink full_name size))) size);
           [| lia]];
        (eexists _, _, _; split; [reflexivity|]; split; [log_shape|];
         cbn [calls_of length app]; split; [lia|];
         repeat constructor; exists size; split; [reflexivity | lia]).
  - rewrite Nat2Z.inj_succ, Z.pow_succ_r in Hm by lia.
    assert (0 < 2 ^ Z.of_nat m) by (apply Z.pow_pos_nonneg; lia).
    assert (Hhalf : size <= 2 ^ 30) by nia.
    rewrite to_int_id by lia.
    destruct (Z.ltb_spec (ret (answer s (Sys_readlink full_name size))) 0);
      [| destruct (Z.ltb_spec (ret (answer s (Sys_readlink full_name size))) size)].
    1,2: (eexists _, _, _; split; [reflexivity|]; split; [log_shape|];
          cbn [calls_of length app]; split; [lia|];
          repeat constructor; exists size; split; [reflexivity | lia]).
    step. rewrite to_guint_id by lia.
    edestruct (IH (size * 2)) as (res & s' & l & Hrun & Hlog & Hcount & Hwithin);
      [lia | lia |].
    eexists res, s', _. split; [exact Hrun|]. split; [rewrite Hlog; log_shape|].
    cbn [calls_of length app]. split; [lia|].
    constructor; [exists size; split; [reflexivity | lia]|].
    constructor; [cbn [within]; lia | exact Hwithin].
Qed.

End ReadLinkBounds.

(** X14: [read_link] cannot loop for ever on a system whose readlink
    returns at most the size of the buffer (and at least the least
    [int]).  With the 32-bit size and the [int] result of the source, 24
    rounds always return: between 1 and 24 calls are made, all of them
    readlink on the given name, and no buffer and no size passed exceeds
    2^31 bytes. *)
Theorem read_link_terminates (P : Platform) (full_name : string) (s : state P) :
  (forall size w,
      0 < size ->
      - 2 ^ 31 <= ret (fst (os P (Sys_readlink full_name size) w)) <= size) ->
  exists res s' l,
    read_link P 24 full_name s = Some (res, s') /\
    log s' = log s ++ l /\
    (1 <= length (calls_of l) <= 24)%nat /\
    Forall (within full_name (2 ^ 31)) l.
Proof.
  intros Hbufsiz. unfold read_link. step.
  edestruct (read_link_loop_bounded P full_name Hbufsiz 23 256)
    as (res & s' & l & Hrun & Hlog & Hcount & Hwithin); [lia | reflexivity |].
  eexists res, s', _. split; [exact Hrun|]. split; [rewrite Hlog; log_shape|].
  cbn [calls_of length app]. split; [exact Hcount|].
  constructor; [cbn [within]; lia | exact Hwithin].
Qed.

Lemma demo_readlink_respects_bufsiz size w :
  0 < size ->
  - 2 ^ 31 <= ret (fst (os demo (Sys_readlink "/link" size) w)) <= size.
Proof. intros H. cbn. destruct (Z.leb_spec size 0); cbn; lia. Qed.

Lemma read_link_terminates_witness :
  (forall size w,
      0 < size ->
      - 2 ^ 31 <= ret (fst (os demo (Sys_readlink "/link" size) w)) <= size) /\
  exists res s' l,
    read_link demo 24 "/link" start = Some (res, s') /\
    log s' = log start ++ l /\
    (1 <= length (calls_of l) <= 24)%nat.
Proof.
  split; [exact demo_readlink_respects_bufsiz|].
  destruct (read_link_terminates demo "/link" start demo_readlink_respects_bufsiz)
    as (res & s' & l & Hrun & Hlog & Hcount & _).
  exists res, s', l. split; [exact Hrun|]. split; [exact Hlog | exact Hcount].
Defined.

Lemma buffer_readlink target size :
  Z.of_nat (String.length target) < size ->
  buffer (readlink_answer target size) (Z.of_nat (String.length target)) = target.
Proof.
  intros H. unfold buffer, readlink_answer. cbn [out].
  change (default EmptyString (Some ?x)) with x.
  rewrite Nat2Z.id, (substring_all target (Z.to_nat size)) by lia.
  apply substring_all. lia.
Qed.

Lemma read_link_loop_stable P full_name target fuel size (s : state P) :
  (forall size w,
      0 < size ->
      fst (os P (Sys_readlink full_name size) w) = readlink_answer target size) ->
  Z.of_nat (String.length target) < 2 ^ 31 ->
  0 < size < 2 ^ 32 ->
  Z.of_nat (String.length target) < size * 2 ^ Z.of_nat fuel ->
  exists s' l,
    read_link_loop P (S fuel) full_name size s = Some (Some target, s') /\
    log s' = log s ++ l /\
    Forall (within full_name (Z.max size (2 * Z.of_nat (String.length target)))) l /\
    (Z.of_nat (String.length target) < size ->
     l = [Call (Sys_readlink full_name size) (readlink_answer target size)]).
Proof.
  intros Hstable Hn.
  assert (Hret : forall size,
             ret (readlink_answer target size)
             = Z.min size (Z.of_nat (String.length target))) by reflexivity.
  revert size s. induction fuel as [|fuel IH]; intros size s Hsize Hfuel;
    cbn [read_link_loop]; step; unfold answer; rewrite Hstable by lia;
    destruct (Z.lt_ge_cases (Z.of_nat (String.length target)) size) as [Hlt|Hge].
  1,3: (rewrite Hret, Z.min_r, (to_int_id (Z.of_nat (String.length target))) by lia;
        destruct (Z.ltb_spec (Z.of_nat (String.length target)) 0); [lia|];
        destruct (Z.ltb_spec (Z.of_nat (String.length target)) size); [| lia];
        rewrite buffer_readlink by lia;
        eexists _, _; split; [reflexivity|]; split; [log_shape|];
        cbn [after log world]; unfold answer; rewrite Hstable by lia;
        split; [| reflexivity];
        repeat constructor; exists size; split; [reflexivity | lia]).
  - change (2 ^ Z.of_nat 0) with 1 in Hfuel. lia.
  - rewrite Hret, Z.min_l, (to_int_id size) by lia.
    destruct (Z.ltb_spec size 0); [lia|]. destruct (Z.ltb_spec size size); [lia|].
    step. rewrite to_guint_id by lia.
    edestruct (IH (size * 2)) as (s' & l & Hrun & Hlog & Hwithin & _); [lia | |].
    { rewrite Nat2Z.inj_succ, Z.pow_succ_r in Hfuel by lia. lia. }
    eexists s', _. split; [exact Hrun|]. split; [rewrite Hlog; log_shape|].
    split; [| lia].
    constructor; [exists size; split; [reflexivity | lia]|].
    constructor; [cbn [within]; lia|].
    eapply List.Forall_impl; [| exact Hwithin].
    intros e. apply within_weaken. lia.
Qed.

(** X15: for a link whose target does not change, [read_link] returns
    the whole target and is economical with memory: no buffer it
    requests and no size it passes is larger than 256 bytes or than
    twice the length of the target, whichever is larger.  A target of up
    to 255 bytes is resolved by the first call, in the first buffer,
    without a doubling. *)
Theorem read_link_is_economical (P : Platform) (full_name target : string)
    (s : state P) :
  (forall size w,
      0 < size ->
      fst (os P (Sys_readlink full_name size) w) = readlink_answer target size) ->
  Z.of_nat (String.length target) < 2 ^ 31 ->
  exists s' l,
    read_link P 24 full_name s = Some (Some target, s') /\
    log s' = log s ++ l /\
    Forall (within full_name (Z.max 256 (2 * Z.of_nat (String.length target)))) l /\
    (Z.of_nat (String.length target) <= 255 ->
     l = [Malloc 256;
          Call (Sys_readlink full_name 256) (readlink_answer target 256)]).
Proof.
  intros Hstable Hn. unfold read_link. step.
  edestruct (read_link_loop_stable P full_name target 23 256)
    as (s' & l & Hrun & Hlog & Hwithin & Hshort); [exact Hstable | exact Hn | lia | |].
  { change (2 ^ Z.of_nat 23) with 8388608. lia. }
  eexists s', _. split; [exact Hrun|]. split; [rewrite Hlog; log_shape|].
  split.
  - constructor; [cbn [within]; lia | exact Hwithin].
  - intros H. rewrite Hshort by lia. reflexivity.
Qed.

Lemma demo_readlink_stable' size w :
  0 < size ->
  fst (os demo (Sys_readlink "/link" size) w) = readlink_answer demo_target size.
Proof. intros H. cbn. destruct (Z.leb_spec size 0); [lia | reflexivity]. Qed.

Lemma read_link_is_economical_witness :
  (forall size w,
      0 < size ->
      fst (os demo (Sys_readlink "/link" size) w) = readlink_answer demo_target size) /\
  Z.of_nat (String.length demo_target) < 2 ^ 31 /\
  exists s' l,
    read_link demo 24 "/link" start = Some (Some demo_target, s') /\
    log s' = log start ++ l /\
    Forall (within "/link" (Z.max 256 (2 * Z.of_nat (String.length demo_target)))) l.
Proof.
  split; [exact demo_readlink_stable'|]. split; [reflexivity|].
  destruct (read_link_is_economical demo "/link" demo_target start
              demo_readlink_stable' eq_refl) as (s' & l & Hrun & Hlog & Hwithin & _).
  exists s', l. split; [exact Hrun|]. split; [exact Hlog | exact Hwithin].
Defined.

(** ** MetadataCollector: the runs of the path-based entry point *)

Lemma read_link_loop_keeps P fuel full_name size :
  keeps (fun c => exists size, c = Sys_readlink full_name size) (fun _ => True)
    (read_link_loop P fuel full_name size).
Proof.
  revert size. induction fuel as [|fuel IH]; intros size;
    [intros s a s'; discriminate|].
  cbn [read_link_loop].
  eapply keeps_bind; [apply keeps_sys; eauto|]. intros r _.
  destruct (_ <? 0); [now apply keeps_ret|].
  destruct (_ <? size); [now apply keeps_ret|].
  eapply keeps_bind; [apply keeps_realloc|]. intros _ _. apply IH.
Qed.

Lemma read_link_keeps P fuel full_name :
  keeps (fun c => exists size, c = Sys_readlink full_name size) (fun _ => True)
    (read_link P fuel full_name).
Proof.
  unfold read_link. eapply keeps_bind; [apply keeps_malloc|]. intros _ _.
  apply read_link_loop_keeps.
Qed.

Lemma calls_of_calls path l :
  Forall (fun e => exists c r, e = Call c r /\ label_call path c) l ->
  Forall (label_call path) (calls_of l).
Proof.
  induction 1 as [|e l (c & r & -> & Hc) _ IH]; cbn [calls_of]; now constructor.
Qed.

Lemma get_selinux_context_keeps P path info matcher (follow : bool) :
  keeps (fun c => HAVE_SELINUX P = true /\
                  g_file_attribute_matcher_matches matcher "selinux" "selinux:context"
                  = true /\
                  label_call path c)
    (frame_key "selinux:context" info)
    (get_selinux_context P path info matcher follow).
Proof.
  intros s info' s' Hrun.
  destruct (get_selinux_context_cases P path info matcher follow s)
    as (i & t & l & Hrun' & Hlog & Hcalls & _ & Hframe & _ & Hnone & _).
  rewrite Hrun' in Hrun. injection Hrun as <- <-.
  split; [exact Hframe|]. exists l. split; [exact Hlog|].
  destruct (HAVE_SELINUX P) eqn:Hhave.
  - destruct (g_file_attribute_matcher_matches matcher "selinux" "selinux:context")
      eqn:Hmatch.
    + eapply List.Forall_impl; [| apply calls_of_calls; exact Hcalls]. auto.
    + destruct (Hnone (or_intror eq_refl)) as (_ & ->).
      rewrite <- (List.app_nil_r (log s)) in Hlog at 1.
      apply List.app_inv_head in Hlog. subst l. constructor.
  - destruct (Hnone (or_introl eq_refl)) as (_ & ->).
    rewrite <- (List.app_nil_r (log s)) in Hlog at 1.
    apply List.app_inv_head in Hlog. subst l. constructor.
Qed.

(** The bag before the first call: the name and the hidden flag as
    requested, and nothing else. *)
Lemma first_bag P basename requested :
  let info0 :=
    (if requests requested (G_FILE_INFO_IS_HIDDEN P)
     then g_file_info_set_is_hidden
            (if requests requested (G_FILE_INFO_NAME P)
             then g_file_info_set_name g_file_info_new basename
             else g_file_info_new)
            (match basename with
             | Some b => Ascii.eqb (char_at b 0) "."
             | None => false
             end)
     else
       if requests requested (G_FILE_INFO_NAME P)
       then g_file_info_set_name g_file_info_new basename
       else g_file_info_new) in
  info_name info0
  = (if requests requested (G_FILE_INFO_NAME P) then c_str <$> basename else None) /\
  info_is_hidden info0
  = (if requests requested (G_FILE_INFO_IS_HIDDEN P)
     then Some (starts_with_dot basename) else None) /\
  info_stat info0 = None /\
  info_symlink_target info0 = None /\
  info_attributes info0 = ∅.
Proof.
  cbv zeta. rewrite starts_with_dot_char_at.
  destruct (requests requested (G_FILE_INFO_IS_HIDDEN P)),
    (requests requested (G_FILE_INFO_NAME P)); repeat split.
Qed.

(** The three ways in which the path-based entry point returns: at once;
    after a failed stat call; after the stat call, the resolution of the
    link if requested, the security label and the extended attributes. *)
Lemma simple_get_cases P fuel basename path requested attribute_matcher
    (follow_symlinks : bool) (s : state P) res s' :
  g_file_info_simple_get P fuel basename path requested attribute_matcher
    follow_symlinks s = Some (res, s') ->
  exists info0,
    (info_name info0
     = (if requests requested (G_FILE_INFO_NAME P) then c_str <$> basename else None) /\
     info_is_hidden info0
     = (if requests requested (G_FILE_INFO_IS_HIDDEN P)
        then Some (starts_with_dot basename) else None) /\
     info_stat info0 = None /\
     info_symlink_target info0 = None /\
     info_attributes info0 = ∅) /\
    ((only_name_and_hidden P requested && is_null attribute_matcher = true /\
      res = (Some info0, None) /\ s' = s) \/
     (only_name_and_hidden P requested && is_null attribute_matcher = false /\
      ret (answer s (stat_call follow_symlinks path)) = -1 /\
      (exists e, res = (None, Some e) /\ error_domain e = G_FILE_ERROR) /\
      s' = after s (stat_call follow_symlinks path)) \/
     (only_name_and_hidden P requested && is_null attribute_matcher = false /\
      ret (answer s (stat_call follow_symlinks path)) <> -1 /\
      exists info1 s1 info2 s2 info3,
        (if requests requested (G_FILE_INFO_SYMLINK_TARGET P)
         then exists link,
             read_link P fuel path (after s (stat_call follow_symlinks path))
             = Some (link, s1) /\
             info1
             = g_file_info_set_symlink_target
                 (g_file_info_set_from_stat info0 requested
                    (default EmptyString
                       (out (answer s (stat_call follow_symlinks path))))) link
         else s1 = after s (stat_call follow_symlinks path) /\
              info1
              = g_file_info_set_from_stat info0 requested
                  (default EmptyString
                     (out (answer s (stat_call follow_symlinks path))))) /\
        get_selinux_context P path info1 attribute_matcher follow_symlinks s1
        = Some (info2, s2) /\
        get_xattrs P fuel path info2 attribute_matcher follow_symlinks s2
        = Some (info3, s') /\
        res = (Some info3, None))).
Proof.
  unfold g_file_info_simple_get. fold (only_name_and_hidden P requested).
  pose proof (first_bag P basename requested) as Hfirst. cbv zeta in Hfirst.
  intros H. eexists. split; [exact Hfirst|]. revert H.
  destruct (only_name_and_hidden P requested && is_null attribute_matcher).
  - intros [= <- <-]. left. auto.
  - step.
    destruct (Z.eqb_spec (ret (answer s (stat_call follow_symlinks path))) (-1))
      as [Hfail|Hok].
    + intros [= <- <-]. right. left. split; [reflexivity|]. split; [exact Hfail|].
      split; [| reflexivity]. eexists. split; reflexivity.
    + intros H. right. right. split; [reflexivity|]. split; [exact Hok|].
      apply bind_inv in H. destruct H as (info1 & s1 & H1 & H).
      apply bind_inv in H. destruct H as (info2 & s2 & H2 & H).
      apply bind_inv in H. destruct H as (info3 & s3 & H3 & H).
      injection H as <- <-.
      exists info1, s1, info2, s2, info3.
      split; [| split; [exact H2 | split; [exact H3 | reflexivity]]].
      destruct (requests requested (G_FILE_INFO_SYMLINK_TARGET P)).
      * apply bind_inv in H1. destruct H1 as (link & t1 & Hlink & H1).
        injection H1 as <- <-. exists link. split; [exact Hlink | reflexivity].
      * injection H1 as <- <-. split; reflexivity.
Qed.

Lemma get_xattrs_gated P fuel path info matcher (follow : bool) :
  keeps (fun c => is_null matcher = false /\
                  ((exists a size, c = getx follow path a size) \/
                   (exists size, c = listx follow path size)))
    (frame_xattrs info) (get_xattrs P fuel path info matcher follow).
Proof.
  destruct matcher as [m|].
  - eapply keeps_weaken; [| | apply get_xattrs_keeps]; [| auto].
    intros c Hc. split; [reflexivity | exact Hc].
  - intros s info' s'. rewrite get_xattrs_without_matcher. intros [= <- <-].
    split; [apply frame_xattrs_refl|]. exists []. split; [now rewrite List.app_nil_r|].
    constructor.
Qed.

Lemma simple_get_keeps P fuel basename path requested matcher (follow : bool) :
  keeps (entry_call P requested matcher follow path) (fun _ => True)
    (g_file_info_simple_get P fuel basename path requested matcher follow).
Proof.
  unfold g_file_info_simple_get.
  destruct (_ && _); [now apply keeps_ret|].
  rewrite stat_sys.
  eapply keeps_bind; [apply keeps_sys; now left|]. intros res _.
  destruct (ret res =? -1); [now apply keeps_ret|].
  eapply (keeps_bind _ (fun _ => True)).
  { destruct (requests requested (G_FILE_INFO_SYMLINK_TARGET P)) eqn:Hreq;
      [| now apply keeps_ret].
    eapply (keeps_bind _ (fun _ => True)); [| intros link _; now apply keeps_ret].
    eapply keeps_weaken; [| | apply read_link_keeps]; [| auto].
    intros c Hc. right. left. split; [exact Hreq | exact Hc]. }
  intros info1 _. cbv beta.
  eapply (keeps_bind _ (fun _ => True)).
  { eapply keeps_weaken; [| | apply get_selinux_context_keeps]; [| auto].
    intros c Hc. right. right. left. exact Hc. }
  intros info2 _. cbv beta.
  eapply (keeps_bind _ (fun _ => True)); [| intros info3 _; now apply keeps_ret].
  eapply keeps_weaken; [| | apply get_xattrs_gated]; [| auto].
  intros c Hc. right. right. right. exact Hc.
Qed.

(** X16: the calls of the path-based entry point.  Whatever the
    operating system answers, a run that returns has made only calls that
    the request asks for, all of them on the path it was given: the stat
    call, in the variant that the flag selects, which is the first call
    of every run that makes a call; readlink only when the symlink target
    is requested; the calls of the security label only when it is
    compiled in and the matcher matches it; getxattr and listxattr, in
    the variant that the flag selects, only when a matcher is given.  It
    never calls fstat or fgetfilecon_raw. *)
Theorem simple_get_calls (P : Platform) (fuel : nat) (basename : option string)
    (path : string) (requested : Z) (attribute_matcher : option GFileAttributeMatcher)
    (follow_symlinks : bool) (s : state P) (res : result) (s' : state P) :
  g_file_info_simple_get P fuel basename path requested attribute_matcher
    follow_symlinks s = Some (res, s') ->
  exists l,
    log s' = log s ++ l /\
    Forall (entry_call P requested attribute_matcher follow_symlinks path)
      (calls_of l) /\
    Forall (fun c => forall fd, c <> Sys_fstat fd /\ c <> Sys_fgetfilecon_raw fd)
      (calls_of l) /\
    (l = [] \/
     exists l',
       l = Call (stat_call follow_symlinks path)
             (answer s (stat_call follow_symlinks path)) :: l').
Proof.
  intros Hrun.
  destruct (simple_get_keeps P fuel basename path requested attribute_matcher
              follow_symlinks s res s' Hrun) as (_ & l & Hlog & Hcalls).
  exists l. split; [exact Hlog|]. split; [exact Hcalls|]. split.
  - eapply List.Forall_impl; [| exact Hcalls]. intros c Hc fd.
    unfold entry_call, label_call, stat_call, getx, listx in Hc.
    destruct follow_symlinks;
      destruct Hc as [-> | [(_ & size & ->) | [(_ & _ & [-> | [-> | ->]])
                      | (_ & [(a & size & ->) | (size & ->)])]]];
      split; discriminate.
  - revert Hrun Hlog. unfold g_file_info_simple_get.
    destruct (_ && _).
    + intros [= <- <-] Hlog. left.
      rewrite <- (List.app_nil_r (log s)) in Hlog at 1.
      now apply List.app_inv_head in Hlog.
    + step. intros Hrun Hlog. right.
      assert (Hrest : exists l1,
                 log s' = log (after s (stat_call follow_symlinks path)) ++ l1).
      { destruct (ret _ =? -1).
        - injection Hrun as _ <-. exists []. now rewrite List.app_nil_r.
        - apply bind_inv in Hrun. destruct Hrun as (info1 & s1 & H1 & Hrun).
          apply bind_inv in Hrun. destruct Hrun as (info2 & s2 & H2 & Hrun).
          apply bind_inv in Hrun. destruct Hrun as (info3 & s3 & H3 & Hrun).
          injection Hrun as _ <-.
          destruct (get_xattrs_keeps P _ _ _ _ _ _ _ _ H3) as (_ & l3 & Hl3 & _).
          destruct (get_selinux_context_keeps P _ _ _ _ _ _ _ H2)
            as (_ & l2 & Hl2 & _).
          assert (Hl1 : exists l1,
                     log s1 = log (after s (stat_call follow_symlinks path)) ++ l1).
          { destruct (requests requested (G_FILE_INFO_SYMLINK_TARGET P)).
            - apply bind_inv in H1. destruct H1 as (link & t1 & Hlink & H1).
              injection H1 as _ <-.
              destruct (read_link_keeps P _ _ _ _ _ Hlink) as (_ & l1 & Hl1 & _).
              eauto.
            - injection H1 as _ <-. exists []. now rewrite List.app_nil_r. }
          destruct Hl1 as (l1 & Hl1).
          exists (l1 ++ l2 ++ l3). rewrite Hl3, Hl2, Hl1.
          now rewrite <- !List.app_assoc. }
      destruct Hrest as (l1 & Hl1). exists l1.
      rewrite Hl1 in Hlog. cbn [after log] in Hlog.
      rewrite <- List.app_assoc in Hlog. apply List.app_inv_head in Hlog.
      symmetry. exact Hlog.
Qed.

Lemma simple_get_calls_witness :
  exists res s' l,
    g_file_info_simple_get demo 2 (Some "file") "/file" 1024 (Some (demo_matcher "*"))
      true start = Some (res, s') /\
    log s' = log start ++ l /\
    Forall (entry_call demo 1024 (Some (demo_matcher "*")) true "/file") (calls_of l).
Proof.
  assert (Hrun : exists res s',
             g_file_info_simple_get demo 2 (Some "file") "/file" 1024
               (Some (demo_matcher "*")) true start = Some (res, s'))
    by (vm_compute; eexists _, _; reflexivity).
  destruct Hrun as (res & s' & Hrun).
  destruct (simple_get_calls demo 2 (Some "file") "/file" 1024
              (Some (demo_matcher "*")) true start res s' Hrun)
    as (l & Hlog & Hcalls & _).
  exists res, s', l. split; [exact Hrun|]. split; [exact Hlog | exact Hcalls].
Defined.

(** The standard fields after the three collectors are those before
    them. *)
Lemma collectors_same_standard P fuel path info1 matcher (follow : bool)
    (s1 : state P) info2 s2 info3 s3 :
  get_selinux_context P path info1 matcher follow s1 = Some (info2, s2) ->
  get_xattrs P fuel path info2 matcher follow s2 = Some (info3, s3) ->
  same_standard info1 info3.
Proof.
  intros H2 H3.
  destruct (get_selinux_context_keeps P _ _ _ _ _ _ _ H2) as ((Hsame2 & _) & _).
  destruct (get_xattrs_keeps P _ _ _ _ _ _ _ _ H3) as ((Hsame3 & _) & _).
  eapply same_standard_trans; eassumption.
Qed.

(** X17: the standard fields of what the path-based entry point
    returns.  A run that returns gives either a bag and no error, or an
    error of the domain [G_FILE_ERROR] and no bag; the error exactly when
    the run is off the fast path and the stat call answered -1.  In the
    bag, whatever the collectors of the label and of the extended
    attributes have done, the name is there exactly when it is requested
    and is the base name; the hidden flag is there exactly when it is
    requested; the fields of the stat result are there exactly off the
    fast path, made from the flags and from the buffer of the stat call;
    and there is no symlink target unless it is requested. *)
Theorem simple_get_standard_fields (P : Platform) (fuel : nat)
    (basename : option string) (path : string) (requested : Z)
    (attribute_matcher : option GFileAttributeMatcher) (follow_symlinks : bool)
    (s : state P) (res : result) (s' : state P) :
  g_file_info_simple_get P fuel basename path requested attribute_matcher
    follow_symlinks s = Some (res, s') ->
  (exists info,
      res = (Some info, None) /\
      (only_name_and_hidden P requested && is_null attribute_matcher = false ->
       ret (answer s (stat_call follow_symlinks path)) <> -1) /\
      info_name info
      = (if requests requested (G_FILE_INFO_NAME P) then c_str <$> basename else None) /\
      info_is_hidden info
      = (if requests requested (G_FILE_INFO_IS_HIDDEN P)
         then Some (starts_with_dot basename) else None) /\
      info_stat info
      = (if only_name_and_hidden P requested && is_null attribute_matcher
         then None
         else Some (requested,
                    default EmptyString
                      (out (answer s (stat_call follow_symlinks path))))) /\
      (requests requested (G_FILE_INFO_SYMLINK_TARGET P) = false ->
       info_symlink_target info = None)) \/
  (exists e,
      res = (None, Some e) /\
      error_domain e = G_FILE_ERROR /\
      only_name_and_hidden P requested && is_null attribute_matcher = false /\
      ret (answer s (stat_call follow_symlinks path)) = -1).
Proof.
  intros Hrun. apply simple_get_cases in Hrun.
  destruct Hrun as (info0 & (Hname & Hhidden & Hstat & Hlink & _) & Hcases).
  destruct Hcases as [(Hfast & -> & _) | [(Hslow & Hfail & (e & -> & He) & _)
                     | (Hslow & Hok & info1 & s1 & info2 & s2 & info3 & H1 & H2 & H3 & ->)]].
  - left. exists info0. rewrite Hfast. split; [reflexivity|].
    split; [discriminate|]. auto.
  - right. exists e. auto.
  - left. exists info3. rewrite Hslow. split; [reflexivity|]. split; [auto|].
    destruct (collectors_same_standard P _ _ _ _ _ _ _ _ _ _ H2 H3)
      as (-> & -> & -> & ->).
    destruct (requests requested (G_FILE_INFO_SYMLINK_TARGET P)).
    + destruct H1 as (link & _ & ->). bag_fields. split; [exact Hname|].
      split; [exact Hhidden|]. split; [reflexivity | discriminate].
    + destruct H1 as (_ & ->). bag_fields. split; [exact Hname|].
      split; [exact Hhidden|]. split; [reflexivity | intros _; exact Hlink].
Qed.

Lemma simple_get_standard_fields_witness :
  exists info s',
    g_file_info_simple_get demo 2 (Some ".file") "/file" 2 (Some (demo_matcher "*"))
      false start = Some ((Some info, None), s') /\
    info_name info = Some ".file" /\
    info_is_hidden info = None /\
    info_stat info = Some (2, "statbuf") /\
    info_symlink_target info = None.
Proof.
  assert (Hrun : exists info s',
             g_file_info_simple_get demo 2 (Some ".file") "/file" 2
               (Some (demo_matcher "*")) false start = Some ((Some info, None), s'))
    by (vm_compute; eexists _, _; reflexivity).
  destruct Hrun as (info & s' & Hrun).
  destruct (simple_get_standard_fields demo 2 (Some ".file") "/file" 2
              (Some (demo_matcher "*")) false start _ s' Hrun)
    as [(i & Hi & _ & Hname & Hhidden & Hstat & Hlink) | (e & He & _)];
    [| discriminate He].
  injection Hi as <-.
  exists info, s'. split; [exact Hrun|]. split; [exact Hname|].
  split; [exact Hhidden|]. split; [exact Hstat | exact (Hlink eq_refl)].
Defined.

(** ** MetadataCollector: the symlink target of a link that does not change *)

Lemma read_link_stable P full_name target (s : state P) :
  (forall size w,
      0 < size ->
      fst (os P (Sys_readlink full_name size) w) = readlink_answer target size) ->
  Z.of_nat (String.length target) < 2 ^ 31 ->
  exists s', read_link P 24 full_name s = Some (Some target, s').
Proof.
  intros Hstable Hn. unfold read_link. step.
  edestruct (read_link_loop_stable P full_name target 23 256)
    as (s' & l & Hrun & _); [exact Hstable | exact Hn | lia | |].
  { change (2 ^ Z.of_nat 23) with 8388608. lia. }
  exists s'. exact Hrun.
Qed.

(** X18: the symlink target, end to end.  Let the symlink target be
    requested, and let readlink answer on the path as for a link whose
    target does not change.  Then every bag that the path-based entry
    point returns holds this target, whole, as its symlink target,
    whichever of stat and lstat the flag has selected and whatever the
    collectors of the label and of the extended attributes have done; and
    when the stat call succeeds and the listing of the extended
    attributes settles, a run with enough fuel returns such a bag. *)
Theorem simple_get_symlink_target (P : Platform) (basename : option string)
    (path target : string) (requested : Z)
    (attribute_matcher : option GFileAttributeMatcher) (follow_symlinks : bool)
    (s : state P) :
  requests requested (G_FILE_INFO_SYMLINK_TARGET P) = true ->
  Z.land (G_FILE_INFO_SYMLINK_TARGET P)
    (Z.lor (G_FILE_INFO_NAME P) (G_FILE_INFO_IS_HIDDEN P)) = 0 ->
  (forall size w,
      0 < size ->
      fst (os P (Sys_readlink path size) w) = readlink_answer target size) ->
  Z.of_nat (String.length target) < 2 ^ 31 ->
  (forall fuel info e s',
      g_file_info_simple_get P fuel basename path requested attribute_matcher
        follow_symlinks s = Some ((Some info, e), s') ->
      info_symlink_target info = Some (c_str target)) /\
  (ret (answer s (stat_call follow_symlinks path)) <> -1 ->
   (forall size w, settles P path follow_symlinks size w) ->
   exists fuel info s',
     g_file_info_simple_get P fuel basename path requested attribute_matcher
       follow_symlinks s = Some ((Some info, None), s') /\
     info_symlink_target info = Some (c_str target)).
Proof.
  intros Hreq Hdisjoint Hstable Hn.
  pose proof (requested_beyond_name_and_hidden P requested _ Hreq Hdisjoint) as Hslow.
  assert (Hall : forall fuel info e s',
      g_file_info_simple_get P fuel basename path requested attribute_matcher
        follow_symlinks s = Some ((Some info, e), s') ->
      info_symlink_target info = Some (c_str target)).
  { intros fuel info e s' Hrun. apply simple_get_cases in Hrun.
    destruct Hrun as (info0 & _ & Hcases).
    destruct Hcases as [(Hfast & _) | [(_ & _ & (e' & He' & _) & _)
                       | (_ & _ & info1 & s1 & info2 & s2 & info3 & H1 & H2 & H3 & He)]].
    - rewrite Hslow in Hfast. discriminate Hfast.
    - discriminate He'.
    - injection He as <- _.
      destruct (collectors_same_standard P _ _ _ _ _ _ _ _ _ _ H2 H3)
        as (_ & _ & _ & ->).
      rewrite Hreq in H1. destruct H1 as (link & Hlink & ->).
      destruct (read_link_stable P path target
                  (after s (stat_call follow_symlinks path)) Hstable Hn)
        as (t & Hwhole).
      pose proof (read_link_mono P _ _ _ _ _ Hlink (Nat.le_max_l fuel 24)) as Ha.
      pose proof (read_link_mono P _ _ _ _ _ Hwhole (Nat.le_max_r fuel 24)) as Hb.
      rewrite Ha in Hb. injection Hb as -> _. reflexivity. }
  split; [exact Hall|].
  intros Hstat Hsettles.
  destruct (simple_get_slow_path P 24 basename path requested attribute_matcher
              follow_symlinks s) as (fuel & info & s' & Hrun);
    [now rewrite Hslow | exact Hstat | | exact Hsettles |].
  { intros _.
    destruct (read_link_stable P path target
                (after s (stat_call follow_symlinks path)) Hstable Hn) as (t & Hwhole).
    eauto. }
  exists fuel, info, s'. split; [exact Hrun | eapply Hall; exact Hrun].
Qed.

Lemma demo_link_settles (follow : bool) size w :
  settles demo "/link" follow size w.
Proof. apply settles_now. destruct follow; reflexivity. Qed.

Lemma simple_get_symlink_target_witness :
  requests 1024 (G_FILE_INFO_SYMLINK_TARGET demo) = true /\
  (forall size w,
      0 < size ->
      fst (os demo (Sys_readlink "/link" size) w) = readlink_answer demo_target size) /\
  exists fuel info s',
    g_file_info_simple_get demo fuel (Some "link") "/link" 1024
      (Some (demo_matcher "*")) false start = Some ((Some info, None), s') /\
    info_symlink_target info = Some (c_str demo_target).
Proof.
  split; [reflexivity|]. split; [exact demo_readlink_stable'|].
  refine (proj2 (simple_get_symlink_target demo (Some "link") "/link" demo_target
                   1024 (Some (demo_matcher "*")) false start eq_refl eq_refl
                   demo_readlink_stable' eq_refl) _ (demo_link_settles false)).
  discriminate.
Defined.

(** ** MetadataCollector: what the bag holds under its keys *)

Lemma get_selinux_context_source P path info matcher (follow : bool) (s : state P)
    info' s' :
  get_selinux_context P path info matcher follow s = Some (info', s') ->
  info' = info \/
  exists r context,
    HAVE_SELINUX P = true /\
    g_file_attribute_matcher_matches matcher "selinux" "selinux:context" = true /\
    log s'
    = log s ++ [Call Sys_is_selinux_enabled (answer s Sys_is_selinux_enabled);
                Call (label_retrieval follow path) r] /\
    0 <= ret r /\ out r = Some context /\
    info' = g_file_info_set_attribute info "selinux:context" context.
Proof.
  unfold get_selinux_context, label_retrieval.
  destruct (HAVE_SELINUX P); [| intros [= <- _]; now left].
  destruct (g_file_attribute_matcher_matches matcher "selinux" "selinux:context");
    cbn [negb]; [| intros [= <- _]; now left].
  step. destruct (ret _ =? 0); [intros [= <- _]; now left|].
  destruct follow; step;
    match goal with |- context [if ret ?r <? 0 then _ else _] =>
      destruct (Z.ltb_spec (ret r) 0) as [Hneg|Hpos];
        [intros [= <- _]; now left|];
        destruct (out r) as [context|] eqn:Hout; [| intros [= <- _]; now left];
        intros [= <- <-]; right; exists r, context
    end;
    (split; [reflexivity|]); (split; [reflexivity|]); (split; [log_shape|]);
    (split; [exact Hpos|]); (split; [exact Hout | reflexivity]).
Qed.









(** What the bag holds under its keys before the collectors of the label
    and of the extended attributes run: nothing. *)
Lemma simple_get_collectors P fuel basename path requested attribute_matcher
    (follow_symlinks : bool) (s : state P) info e s' :
  g_file_info_simple_get P fuel basename path requested attribute_matcher
    follow_symlinks s = Some ((Some info, e), s') ->
  info_attributes info = ∅ \/
  exists info1 s1 info2 s2 l1,
    info_attributes info1 = ∅ /\
    log s1 = log s ++ l1 /\
    get_selinux_context P path info1 attribute_matcher follow_symlinks s1
    = Some (info2, s2) /\
    get_xattrs P fuel path info2 attribute_matcher follow_symlinks s2
    = Some (info, s').
Proof.
  intros Hrun. apply simple_get_cases in Hrun.
  destruct Hrun as (info0 & (_ & _ & _ & _ & Hempty) & Hcases).
  destruct Hcases as [(_ & He & _) | [(_ & _ & (e' & He' & _) & _)
                     | (_ & _ & info1 & s1 & info2 & s2 & info3 & H1 & H2 & H3 & He)]].
  - injection He as -> _. now left.
  - discriminate He'.
  - injection He as -> _. right.
    assert (Hfirst : info_attributes info1 = ∅ /\ exists l1, log s1 = log s ++ l1).
    { destruct (requests requested (G_FILE_INFO_SYMLINK_TARGET P)).
      - destruct H1 as (link & Hlink & ->). split; [exact Hempty|].
        destruct (read_link_keeps P _ _ _ _ _ Hlink) as (_ & l & Hl & _).
        eexists. rewrite Hl. cbn [after log]. now rewrite <- List.app_assoc.
      - destruct H1 as (-> & ->). split; [exact Hempty|]. eexists. reflexivity. }
    destruct Hfirst as (Hempty1 & l1 & Hl1).
    exists info1, s1, info2, s2, l1. auto.
Qed.

(** X19: the security label of the path-based entry point, end to end.
    A bag that it returns holds a label only when the collector is
    compiled in and the matcher matches the label; and the label that it
    holds is the context that a retrieval of this very run has put in
    its buffer, with a return value that is not negative: the retrieval
    by lgetfilecon_raw when symlinks are followed, by getfilecon_raw when
    they are not.  The collector of the extended attributes, which runs
    afterwards, has not touched it. *)
Theorem simple_get_label (P : Platform) (fuel : nat) (basename : option string)
    (path : string) (requested : Z) (attribute_matcher : option GFileAttributeMatcher)
    (follow_symlinks : bool) (s : state P) (info : GFileInfo) (e : option GError)
    (s' : state P) :
  g_file_info_simple_get P fuel basename path requested attribute_matcher
    follow_symlinks s = Some ((Some info, e), s') ->
  (HAVE_SELINUX P = false \/
   g_file_attribute_matcher_matches attribute_matcher "selinux" "selinux:context"
   = false ->
   info_attributes info !! "selinux:context" = None) /\
  (forall v,
      info_attributes info !! "selinux:context" = Some v ->
      exists l1 r context l2,
        log s' = log s ++ l1 ++ Call (label_retrieval follow_symlinks path) r :: l2 /\
        0 <= ret r /\ out r = Some context /\ v = c_str context).
Proof.
  intros Hrun. apply simple_get_collectors in Hrun.
  destruct Hrun as [Hempty | (info1 & s1 & info2 & s2 & l1 & Hempty & Hl1 & H2 & H3)].
  { rewrite Hempty. split; [intros _; apply lookup_empty|].
    intros v Hv. rewrite lookup_empty in Hv. discriminate Hv. }
  destruct (get_xattrs_keeps P _ _ _ _ _ _ _ _ H3) as ((_ & Hframe) & l3 & Hl3 & _).
  rewrite (Hframe "selinux:context" label_key_is_no_xattr_key).
  destruct (get_selinux_context_source P _ _ _ _ _ _ _ H2)
    as [-> | (r & context & Hhave & Hmatch & Hl2 & Hret & Hout & ->)].
  { rewrite Hempty. split; [intros _; apply lookup_empty|].
    intros v Hv. rewrite lookup_empty in Hv. discriminate Hv. }
  split.
  - rewrite Hhave, Hmatch. intros [H|H]; discriminate H.
  - unfold g_file_info_set_attribute. cbn [info_attributes].
    change (c_str "selinux:context") with "selinux:context".
    rewrite lookup_insert_eq. intros v [= <-].
    exists (l1 ++ [Call Sys_is_selinux_enabled (answer s1 Sys_is_selinux_enabled)]),
      r, context, l3.
    split; [| auto]. rewrite Hl3, Hl2, Hl1. now rewrite <- !List.app_assoc.
Qed.

Lemma simple_get_label_witness :
  exists info s',
    g_file_info_simple_get demo 2 (Some "file") "/file" 2 (Some (demo_matcher "selinux:*"))
      true start = Some ((Some info, None), s') /\
    info_attributes info !! "selinux:context" = Some demo_context /\
    exists l1 r context l2,
      log s' = log start ++ l1 ++ Call (label_retrieval true "/file") r :: l2 /\
      0 <= ret r /\ out r = Some context /\ demo_context = c_str context.
Proof.
  pose (info := g_file_info_set_attribute
                  (g_file_info_set_from_stat
                     (g_file_info_set_name g_file_info_new (Some "file")) 2 "statbuf")
                  "selinux:context" demo_context).
  assert (Hrun : exists s',
             g_file_info_simple_get demo 2 (Some "file") "/file" 2
               (Some (demo_matcher "selinux:*")) true start
             = Some ((Some info, None), s'))
    by (vm_compute; eexists; reflexivity).
  destruct Hrun as (s' & Hrun).
  assert (Hlabel : info_attributes info !! "selinux:context" = Some demo_context)
    by (vm_compute; reflexivity).
  exists info, s'. split; [exact Hrun|]. split; [exact Hlabel|].
  exact (proj2 (simple_get_label demo 2 (Some "file") "/file" 2
                  (Some (demo_matcher "selinux:*")) true start info None s' Hrun)
           demo_context Hlabel).
Defined.



(** ** MetadataCollector: the descriptor-based entry point *)

(** X21: the descriptor-based entry point, whatever the operating
    system answers.  It always returns, after fstat on the descriptor
    and at most two more calls, which are is_selinux_enabled and
    fgetfilecon_raw on the descriptor: it makes no call that takes a
    path, and it neither lists nor reads extended attributes, whatever
    the attributes asked for.  When fstat does not answer -1 it returns
    a bag and no error; the bag holds the fields of the stat result,
    made from the flags and from the buffer of fstat; it holds no name,
    no hidden flag and no symlink target, whatever the flags; and it
    holds nothing under a key other than that of the security label,
    and nothing at all when the collector of the label is not compiled
    in or the matcher made from the attributes does not match the
    label. *)
Theorem simple_get_from_fd_outcome (P : Platform) (fd : Z) (requested : Z)
    (attributes : option string) (s : state P) :
  exists res s' l,
    g_file_info_simple_get_from_fd P fd requested attributes s = Some (res, s') /\
    log s' = log s ++ Call (Sys_fstat fd) (answer s (Sys_fstat fd)) :: l /\
    Forall (fun e => exists r, e = Call Sys_is_selinux_enabled r \/
                               e = Call (Sys_fgetfilecon_raw fd) r) l /\
    (length l <= 2)%nat /\
    (ret (answer s (Sys_fstat fd)) <> -1 ->
     exists info,
       res = (Some info, None) /\
       info_name info = None /\
       info_is_hidden info = None /\
       info_symlink_target info = None /\
       info_stat info
       = Some (requested, default EmptyString (out (answer s (Sys_fstat fd)))) /\
       (forall k, k <> "selinux:context" -> info_attributes info !! k = None) /\
       (HAVE_SELINUX P = false \/
        g_file_attribute_matcher_matches (g_file_attribute_matcher_new P attributes)
          "selinux" "selinux:context" = false ->
        info_attributes info = ∅ /\ l = [])).
Proof.
  unfold g_file_info_simple_get_from_fd. step.
  destruct (Z.eqb_spec (ret (answer s (Sys_fstat fd))) (-1)) as [Hfail|Hok].
  { eexists _, _, []. split; [reflexivity|]. split; [reflexivity|].
    split; [constructor|]. split; [cbn; lia | contradiction]. }
  destruct (HAVE_SELINUX P) eqn:Hhave.
  2:{ rewrite (bind_run _ _ _ _ _ eq_refl).
      eexists _, _, []. split; [reflexivity|]. split; [reflexivity|].
      split; [constructor|]. split; [cbn; lia|]. intros _.
      eexists. split; [reflexivity|]. bag_fields.
      do 4 (split; [reflexivity|]). split; [intros k _; apply lookup_empty | auto]. }
  destruct (g_file_attribute_matcher_matches (g_file_attribute_matcher_new P attributes)
              "selinux" "selinux:context") eqn:Hmatch.
  2:{ rewrite (bind_run _ _ _ _ _ eq_refl).
      eexists _, _, []. split; [reflexivity|]. split; [reflexivity|].
      split; [constructor|]. split; [cbn; lia|]. intros _.
      eexists. split; [reflexivity|]. bag_fields.
      do 4 (split; [reflexivity|]). split; [intros k _; apply lookup_empty | auto]. }
  unfold mbind' at 1. step.
  destruct (ret (answer (after s (Sys_fstat fd)) Sys_is_selinux_enabled) =? 0).
  { eexists _, _, _. split; [reflexivity|]. split; [log_shape|].
    split; [repeat constructor; eauto|]. split; [cbn; lia|]. intros _.
    eexists. split; [reflexivity|]. bag_fields.
    do 4 (split; [reflexivity|]). split; [intros k _; apply lookup_empty|].
    intros [H|H]; discriminate H. }
  step.
  match goal with |- context [if ?c then _ else _] => destruct c end;
    eexists _, _, _; (split; [reflexivity|]); (split; [log_shape|]);
    (split; [repeat constructor; eauto|]); (split; [cbn; lia|]); intros _;
    eexists; (split; [reflexivity|]); bag_fields;
    do 4 (split; [reflexivity|]);
    (split; [| intros [H|H]; discriminate H]); intros k Hk.
  - change (c_str "selinux:context") with "selinux:context".
    rewrite lookup_insert_ne by congruence. apply lookup_empty.
  - apply lookup_empty.
Qed.

(** ** MetadataCollector: the path-based entry point returns *)

Lemma read_link_returns P full_name (s : state P) :
  (forall size w,
      0 < size ->
      - 2 ^ 31 <= ret (fst (os P (Sys_readlink full_name size) w)) <= size) ->
  exists res s', read_link P 24 full_name s = Some (res, s').
Proof.
  intros Hbufsiz. unfold read_link. step.
  edestruct (read_link_loop_bounded P full_name Hbufsiz 23 256)
    as (res & s' & l & Hrun & _); [lia | reflexivity |].
  eauto.
Qed.

(** X22: the path-based entry point cannot loop for ever on a system
    whose readlink returns at most the size of the buffer (and at least
    the least [int]) and on which the listing of the extended attributes
    of the path stops answering ERANGE at some size: with enough fuel it
    returns, whatever the request and whatever the answers otherwise.
    What it returns is a bag and no error, unless the run is off the
    fast path and the stat call answers -1. *)
Theorem simple_get_returns (P : Platform) (basename : option string)
    (path : string) (requested : Z) (attribute_matcher : option GFileAttributeMatcher)
    (follow_symlinks : bool) (s : state P) :
  (forall size w,
      0 < size ->
      - 2 ^ 31 <= ret (fst (os P (Sys_readlink path size) w)) <= size) ->
  (forall size w, settles P path follow_symlinks size w) ->
  exists fuel res s',
    g_file_info_simple_get P fuel basename path requested attribute_matcher
      follow_symlinks s = Some (res, s') /\
    (only_name_and_hidden P requested && is_null attribute_matcher = true \/
     ret (answer s (stat_call follow_symlinks path)) <> -1 ->
     exists info, res = (Some info, None)).
Proof.
  intros Hbufsiz Hsettles.
  destruct (only_name_and_hidden P requested && is_null attribute_matcher) eqn:Hfast.
  - exists 0%nat. unfold g_file_info_simple_get.
    fold (only_name_and_hidden P requested). rewrite Hfast.
    eexists _, _. split; [reflexivity | eauto].
  - destruct (Z.eq_dec (ret (answer s (stat_call follow_symlinks path))) (-1))
      as [Hfail|Hok].
    + exists 0%nat. unfold g_file_info_simple_get.
      fold (only_name_and_hidden P requested). rewrite Hfast. step.
      rewrite Hfail. cbn [Z.eqb Pos.eqb].
      eexists _, _. split; [reflexivity|]. intros [H|H]; [discriminate H | contradiction].
    + destruct (simple_get_slow_path P 24 basename path requested attribute_matcher
                  follow_symlinks s Hfast Hok) as (fuel & info & s' & Hrun).
      * intros _. apply read_link_returns. exact Hbufsiz.
      * exact Hsettles.
      * exists fuel, (Some info, None), s'. split; [exact Hrun | eauto].
Qed.

Lemma simple_get_returns_witness :
  (forall size w,
      0 < size ->
      - 2 ^ 31 <= ret (fst (os demo (Sys_readlink "/link" size) w)) <= size) /\
  (forall size w, settles demo "/link" true size w) /\
  exists fuel res s',
    g_file_info_simple_get demo fuel (Some "link") "/link" 1024
      (Some (demo_matcher "*")) true start = Some (res, s').
Proof.
  split; [exact demo_readlink_respects_bufsiz|].
  split; [exact (demo_link_settles true)|].
  destruct (simple_get_returns demo (Some "link") "/link" 1024
              (Some (demo_matcher "*")) true start demo_readlink_respects_bufsiz
              (demo_link_settles true)) as (fuel & res & s' & Hrun & _).
  exists fuel, res, s'. exact Hrun.
Defined.
